(** * HACK assembler (hack_asm.py): shallow embedding and verified properties

    The development follows the stages of [hack_asm.py]:
    [parser], [label_table], [const_table], [var_table], [refer_to_num],
    [a_instr_encoder], [c_instr_encoder], [bin_encoder] and [main].

    Modelling conventions.
    - A Python [str] is a [string]; a character is read as the code point
      of the same number, so the model covers code points below 256.
    - A Python [int] is a [Z].
    - A Python [dict] is a [gmap]; only lookups, membership tests and
      insertions are used by the program, never the iteration order.
    - A Python exception is a value of [exn]; a function that can raise
      returns a [result].
    - File access in [parser] and [main] is left out: [parser] starts from
      the list returned by [read().splitlines()], and [main] returns the
      list of lines it would write. *)

From Stdlib Require Import ZArith Ascii String List Lia Bool.
From stdpp Require Import gmap strings list fin_maps.

Local Open Scope Z_scope.

(* ===================================================================== *)
(** ** Exceptions and results *)
(* ===================================================================== *)

Inductive exn : Type :=
  | IndexError                (* string index out of range *)
  | KeyError (key : string)   (* dict lookup of a missing key *)
  | ValueError.               (* int() on a malformed literal, list.remove *)

Inductive result (A : Type) : Type :=
  | OK (a : A)
  | Raise (e : exn).
Arguments OK {A} a.
Arguments Raise {A} e.

Definition rbind {A B} (r : result A) (k : A → result B) : result B :=
  match r with
  | OK a => k a
  | Raise e => Raise e
  end.

(** [x ← r; k] runs [k] on the value of [r], or propagates its exception. *)
Global Instance result_ret : MRet result := @OK.
Global Instance result_bind : MBind result := λ A B k r, rbind r k.

(** A [for] loop whose body may raise, threading the loop state. *)
Fixpoint for_each {A S} (body : S → A → result S) (l : list A) (s : S)
  : result S :=
  match l with
  | [] => OK s
  | x :: l' => s' ← body s x; for_each body l' s'
  end.

(** A [for] loop that appends one computed element per iteration. *)
Fixpoint for_append {A B} (body : A → result B) (l : list A)
  : result (list B) :=
  match l with
  | [] => OK []
  | x :: l' => y ← body x; ys ← for_append body l'; OK (y :: ys)
  end.

(* ===================================================================== *)
(** ** Python built-ins used by the program *)
(* ===================================================================== *)

Module Py.

(** [len(s)] *)
Definition len (s : string) : Z := Z.of_nat (String.length s).

Fixpoint take (n : nat) (s : string) : string :=
  match n, s with
  | S n', String c s' => String c (take n' s')
  | _, _ => EmptyString
  end.

Fixpoint drop (n : nat) (s : string) : string :=
  match n, s with
  | S n', String _ s' => drop n' s'
  | _, _ => s
  end.

(** Slice bounds: a negative bound counts from the end, and every bound
    is clamped to [0 .. len]. *)
Definition clamp (n i : Z) : Z :=
  if i <? 0 then Z.max (i + n) 0 else Z.min i n.

(** [s[start:stop]]; [None] is an omitted bound. *)
Definition slice (s : string) (start stop : option Z) : string :=
  let n := len s in
  let lo := match start with Some i => clamp n i | None => 0 end in
  let hi := match stop with Some i => clamp n i | None => n end in
  take (Z.to_nat (hi - lo)) (drop (Z.to_nat lo) s).

(** [s[i]] for [i >= 0], as the program uses it. *)
Definition getitem (s : string) (i : nat) : result ascii :=
  match String.get i s with
  | Some c => OK c
  | None => Raise IndexError
  end.

(** Position of the first occurrence of a character: [c in s] holds
    iff the result is [Some _], and then [s.index(c)] is its content. *)
Fixpoint find (c : ascii) (s : string) : option nat :=
  match s with
  | EmptyString => None
  | String d s' =>
      if Ascii.eqb d c then Some O else S <$> find c s'
  end.

(** [c in s] *)
Definition contains (c : ascii) (s : string) : bool :=
  match find c s with Some _ => true | None => false end.

(** Whitespace of [str.split()] and [int()], code points below 256:
    U+0009..U+000D, U+001C..U+0020, U+0085 and U+00A0. *)
Definition isspace (c : ascii) : bool :=
  let n := Z.of_nat (nat_of_ascii c) in
  ((9 <=? n) && (n <=? 13)) || ((28 <=? n) && (n <=? 32))
  || (n =? 133) || (n =? 160).

(** Value of an ASCII decimal digit. *)
Definition digit_value (c : ascii) : option Z :=
  let n := Z.of_nat (nat_of_ascii c) in
  if (48 <=? n) && (n <=? 57) then Some (n - 48) else None.

(** [c.isdigit()], code points below 256: the ASCII digits and the
    superscripts U+00B2, U+00B3, U+00B9. *)
Definition isdigit (c : ascii) : bool :=
  let n := Z.of_nat (nat_of_ascii c) in
  ((48 <=? n) && (n <=? 57)) || (n =? 178) || (n =? 179) || (n =? 185).

(** [s.split()] joined on the empty separator: all whitespace removed. *)
Fixpoint remove_whitespace (s : string) : string :=
  match s with
  | EmptyString => EmptyString
  | String c s' =>
      if isspace c then remove_whitespace s'
      else String c (remove_whitespace s')
  end.

(** *** [str(n)] *)

Definition digit_char (d : Z) : ascii := ascii_of_nat (Z.to_nat (48 + d)).

Fixpoint str_digits (fuel : nat) (n : Z) (acc : string) : string :=
  match fuel with
  | O => acc
  | S fuel' =>
      let acc' := String (digit_char (n mod 10)) acc in
      if n / 10 =? 0 then acc' else str_digits fuel' (n / 10) acc'
  end.

(** A number has no more decimal than binary digits. *)
Definition str_fuel (n : Z) : nat := S (Z.to_nat (Z.log2 n)).

Definition str (n : Z) : string :=
  if n <? 0 then String "-" (str_digits (str_fuel (- n)) (- n) EmptyString)
  else str_digits (str_fuel n) n EmptyString.

(** *** [int(s)], base 10 *)

Fixpoint lstrip (s : string) : string :=
  match s with
  | String c s' => if isspace c then lstrip s' else s
  | EmptyString => EmptyString
  end.

Fixpoint rstrip (s : string) : string :=
  match s with
  | EmptyString => EmptyString
  | String c s' =>
      match rstrip s' with
      | EmptyString => if isspace c then EmptyString else String c EmptyString
      | r => String c r
      end
  end.

(** Digits with single underscores allowed between two digits;
    [prev] tells whether the previous character was a digit. *)
Fixpoint int_digits (s : string) (acc : Z) (prev : bool) : option Z :=
  match s with
  | EmptyString => if prev then Some acc else None
  | String c s' =>
      match digit_value c with
      | Some d => int_digits s' (10 * acc + d) true
      | None =>
          if Ascii.eqb c "_" && prev then int_digits s' acc false
          else None
      end
  end.

(** Surrounding whitespace is ignored, one sign is allowed.  The limit
    on the number of digits of recent interpreters (4300 by default) is
    not modelled. *)
Definition int (s : string) : result Z :=
  let t := rstrip (lstrip s) in
  let body :=
    match t with
    | String c t' =>
        if Ascii.eqb c "-" then Z.opp <$> int_digits t' 0 false
        else if Ascii.eqb c "+" then int_digits t' 0 false
        else int_digits t 0 false
    | EmptyString => None
    end in
  match body with
  | Some n => OK n
  | None => Raise ValueError
  end.

(** *** [bin(n)] *)

Fixpoint bin_digits (p : positive) (acc : string) : string :=
  match p with
  | xH => String "1" acc
  | xO p' => bin_digits p' (String "0" acc)
  | xI p' => bin_digits p' (String "1" acc)
  end.

Definition bin (n : Z) : string :=
  match n with
  | Z0 => "0b0"
  | Zpos p => "0b" +:+ bin_digits p EmptyString
  | Zneg p => "-0b" +:+ bin_digits p EmptyString
  end.

(** [l.remove(x)]: deletes the first element equal to [x]. *)
Fixpoint list_remove (x : string) (l : list string)
  : result (list string) :=
  match l with
  | [] => Raise ValueError
  | y :: l' =>
      if String.eqb y x then OK l'
      else r ← list_remove x l'; OK (y :: r)
  end.

(** [{**a, **b}]: the entries of [b] override those of [a]. *)
Definition dict_merge (a b : gmap string Z) : gmap string Z := b ∪ a.

(** [d[k]] *)
Definition dict_get {V} (d : gmap string V) (k : string) : result V :=
  match d !! k with
  | Some v => OK v
  | None => Raise (KeyError k)
  end.

End Py.

(* ===================================================================== *)
(** ** The assembler *)
(* ===================================================================== *)

(** A dict built by a sequence of assignments [d[k] = v]. *)
Definition dict_assign {V} (d : gmap string V) (kvs : list (string * V))
  : gmap string V :=
  foldl (λ d kv, <[kv.1 := kv.2]> d) d kvs.

(** [k in d.keys()] *)
Definition dict_has {V} (d : gmap string V) (k : string) : bool :=
  match d !! k with Some _ => true | None => false end.

(** *** [parser]: one iteration of the loop over [asm_lst], then the loop *)

Definition parser_step (parsed_lst : list string) (line : string)
  : list string :=
  if String.eqb line EmptyString then parsed_lst
  else
    let mod_line := Py.remove_whitespace line in
    match Py.find "/" mod_line with
    | Some ind =>
        if negb (ind =? 0)%nat
        then parsed_lst ++ [Py.slice mod_line (Some 0) (Some (Z.of_nat ind))]
        else parsed_lst
    | None => parsed_lst ++ [mod_line]
    end.

Definition parser (asm_lst : list string) : list string :=
  foldl parser_step [] asm_lst.

(** *** [label_table]

    The loop runs over a copy of [instr_lst] and mutates the original;
    the state is the table, the counter and the list being mutated.  The
    function returns the table together with the final list, which is
    what the caller's [instr_lst] then holds. *)

Definition label_state : Type := gmap string Z * Z * list string.

Definition label_step (st : label_state) (line : string)
  : result label_state :=
  let '(table_dict, instr_count, instr_lst) := st in
  if negb (Py.contains "(" line)
  then OK (table_dict, instr_count + 1, instr_lst)
  else
    let label := Py.slice line (Some 1) (Some (-1)) in
    instr_lst' ← Py.list_remove line instr_lst;
    OK (<[label := instr_count]> table_dict, instr_count, instr_lst').

Definition label_table (instr_lst : list string)
  : result (gmap string Z * list string) :=
  '(table_dict, _, instr_lst') ←
    for_each label_step instr_lst (∅, 0, instr_lst);
  OK (table_dict, instr_lst').

(** *** [const_table] *)

Definition const_table : gmap string Z :=
  let table_dict :=
    foldl (λ d i, <["R" +:+ Py.str i := i]> d) ∅ (seqZ 0 16) in
  dict_assign table_dict
    [("SCREEN", 16384); ("KBD", 24576);
     ("SP", 0); ("LCL", 1); ("ARG", 2); ("THIS", 3); ("THAT", 4)].

(** *** [var_table] *)

Definition var_step (lbl_tbl const_tbl : gmap string Z)
    (st : gmap string Z * Z) (line : string) : result (gmap string Z * Z) :=
  let '(table_dict, ram_pointer) := st in
  c0 ← Py.getitem line 0;
  if Ascii.eqb c0 "@" then
    c1 ← Py.getitem line 1;
    if negb (Py.isdigit c1) then
      let symb := Py.slice line (Some 1) None in
      if negb (dict_has lbl_tbl symb) && negb (dict_has const_tbl symb)
         && negb (dict_has table_dict symb)
      then OK (<[symb := ram_pointer]> table_dict, ram_pointer + 1)
      else OK st
    else OK st
  else OK st.

Definition var_table (instr_lst : list string)
    (lbl_tbl const_tbl : gmap string Z) : result (gmap string Z) :=
  '(table_dict, _) ← for_each (var_step lbl_tbl const_tbl) instr_lst (∅, 16);
  OK table_dict.

(** *** [refer_to_num] *)

Definition refer_line (symb_tbl : gmap string Z) (line : string)
  : result string :=
  c0 ← Py.getitem line 0;
  if Ascii.eqb c0 "@" then
    c1 ← Py.getitem line 1;
    if negb (Py.isdigit c1) then
      let symb := Py.slice line (Some 1) None in
      v ← Py.dict_get symb_tbl symb;
      OK ("@" +:+ Py.str v)
    else OK line
  else OK line.

Definition refer_to_num (instr_lst : list string)
    (lbl_tbl const_tbl var_tbl : gmap string Z) : result (list string) :=
  let symb_tbl := Py.dict_merge (Py.dict_merge lbl_tbl const_tbl) var_tbl in
  for_append (refer_line symb_tbl) instr_lst.

(** *** [a_instr_encoder] *)

Definition a_instr_encoder (instr : string) : result string :=
  n ← Py.int (Py.slice instr (Some 1) None);
  let bin_str := Py.slice (Py.bin n) (Some 2) None in
  OK (Nat.iter (Z.to_nat (16 - Py.len bin_str)) (String "0") bin_str).

(** *** [c_instr_encoder] *)

Definition c_instr_encoder (line : string)
    (comp_tbl dest_tbl jmp_tbl : gmap string string) : result string :=
  let ind_eq :=
    match Py.find "=" line with
    | Some i => Z.of_nat i
    | None => - Py.len line - 1
    end in
  let ind_jmp :=
    match Py.find ";" line with
    | Some i => Z.of_nat i
    | None => Py.len line
    end in
  let dest := Py.slice line None (Some ind_eq) in
  let dest := if String.eqb dest EmptyString then "null" else dest in
  let jmp := Py.slice line (Some (ind_jmp + 1)) None in
  let jmp := if String.eqb jmp EmptyString then "null" else jmp in
  let comp := Py.slice line (Some (ind_eq + 1)) (Some ind_jmp) in
  c ← Py.dict_get comp_tbl comp;
  d ← Py.dict_get dest_tbl dest;
  j ← Py.dict_get jmp_tbl jmp;
  OK ("111" +:+ c +:+ d +:+ j).

(** *** [bin_encoder] and its three code tables *)

Definition comp_tbl : gmap string string :=
  dict_assign ∅
    [("0", "0101010"); ("1", "0111111"); ("-1", "0111010");
     ("D", "0001100"); ("A", "0110000"); ("M", "1110000");
     ("!D", "0001101"); ("!A", "0110001"); ("!M", "1110001");
     ("-D", "0001101"); ("-A", "0110011"); ("-M", "1110011");
     ("D+1", "0011111"); ("A+1", "0110111"); ("M+1", "1110111");
     ("D-1", "0001110"); ("A-1", "0110010"); ("M-1", "1110010");
     ("D+A", "0000010"); ("D+M", "1000010");
     ("D-A", "0010011"); ("D-M", "1010011");
     ("A-D", "0000111"); ("M-D", "1000111");
     ("D&A", "0000000"); ("D&M", "1000000");
     ("D|A", "0010101"); ("D|M", "1010101")].

Definition dest_tbl : gmap string string :=
  dict_assign ∅
    [("null", "000"); ("M", "001"); ("D", "010"); ("MD", "011");
     ("A", "100"); ("AM", "101"); ("AD", "110"); ("AMD", "111")].

Definition jmp_tbl : gmap string string :=
  dict_assign ∅
    [("null", "000"); ("JGT", "001"); ("JEQ", "010"); ("JGE", "011");
     ("JLT", "100"); ("JNE", "101"); ("JLE", "110"); ("JMP", "111")].

Definition bin_line (line : string) : result string :=
  c0 ← Py.getitem line 0;
  if Ascii.eqb c0 "@" then a_instr_encoder line
  else c_instr_encoder line comp_tbl dest_tbl jmp_tbl.

Definition bin_encoder (instr_lst : list string) : result (list string) :=
  for_append bin_line instr_lst.

(** *** [main], from the lines read to the lines written *)

Definition main (asm_lst : list string) : result (list string) :=
  let instr_lst := parser asm_lst in
  '(lbl_tbl, instr_lst) ← label_table instr_lst;
  let const_tbl := const_table in
  var_tbl ← var_table instr_lst lbl_tbl const_tbl;
  instr_lst ← refer_to_num instr_lst lbl_tbl const_tbl var_tbl;
  bin_encoder instr_lst.

(* ===================================================================== *)
(** ** Definitions used to state the properties *)
(* ===================================================================== *)

(** *** Labels *)

(** The test of [label_table] for a label declaration, and the name it
    records. *)
Definition is_label (line : string) : bool := Py.contains "(" line.
Definition label_name (line : string) : string :=
  Py.slice line (Some 1) (Some (-1)).

(** The lines that are kept: those that are not label declarations. *)
Definition retained (l : list string) : list string :=
  filter (λ line, negb (is_label line)) l.

(** The table after scanning [l], from table [t] and counter [n]. *)
Fixpoint label_scan (t : gmap string Z) (n : Z) (l : list string)
  : gmap string Z :=
  match l with
  | [] => t
  | line :: l' =>
      if is_label line then label_scan (<[label_name line := n]> t) n l'
      else label_scan t (n + 1) l'
  end.

(** *** Symbols and variables *)

(** The operand of an address instruction that is not numeric, as
    [var_table] and [refer_to_num] test it: first character [@], second
    character not a digit. *)
Definition symbol_of (line : string) : option string :=
  match line with
  | String c0 (String c1 s) =>
      if Ascii.eqb c0 "@" && negb (Py.isdigit c1) then Some (String c1 s)
      else None
  | _ => None
  end.

(** The lines on which [line[0]] and, after an [@], [line[1]] exist. *)
Definition indexable (line : string) : Prop :=
  line ≠ EmptyString ∧ line ≠ "@".

Global Instance indexable_dec (line : string) : Decision (indexable line).
Proof. unfold indexable. apply _. Defined.

(** One iteration of [var_table] on an indexable line. *)
Definition var_next (lbl_tbl const_tbl : gmap string Z)
    (st : gmap string Z * Z) (line : string) : gmap string Z * Z :=
  match symbol_of line with
  | Some symb =>
      if negb (dict_has lbl_tbl symb) && negb (dict_has const_tbl symb)
         && negb (dict_has st.1 symb)
      then (<[symb := st.2]> st.1, st.2 + 1)
      else st
  | None => st
  end.

(** The symbolic operands of a program, in program order. *)
Definition symbols (S : list string) : list string := omap symbol_of S.

(** The elements of a list in order of first occurrence. *)
Fixpoint distinct (l : list string) : list string :=
  match l with
  | [] => []
  | x :: l' => x :: filter (λ y, y ≠ x) (distinct l')
  end.

(** The test [var_table] makes before it allocates. *)
Definition fresh (L C t : gmap string Z) (s : string) : bool :=
  negb (dict_has L s) && negb (dict_has C s) && negb (dict_has t s).

(** The symbols that are neither labels nor constants, in order of first
    occurrence among the address instructions. *)
Definition new_symbols (L C : gmap string Z) (S : list string)
  : list string :=
  distinct (filter (λ s, fresh L C ∅ s) (symbols S)).

(** Consecutive addresses from [p] on, given in the order of the list. *)
Fixpoint alloc (t : gmap string Z) (p : Z) (order : list string)
  : gmap string Z :=
  match order with
  | [] => t
  | s :: order' => alloc (<[s := p]> t) (p + 1) order'
  end.

(** *** Numerals *)

(** Every character of a string passes a test. *)
Fixpoint string_forall (P : ascii → bool) (s : string) : bool :=
  match s with
  | EmptyString => true
  | String c s' => P c && string_forall P s'
  end.

(** The characters [int] reads as digits. *)
Definition is_digit (c : ascii) : bool :=
  match Py.digit_value c with Some _ => true | None => false end.

(** The [k]-bit unsigned binary representation, most significant bit
    first, zero-padded on the left. *)
Fixpoint bits (k : nat) (n : Z) : string :=
  match k with
  | O => EmptyString
  | S k' =>
      String (if Z.testbit n (Z.of_nat k') then "1" else "0")%char
             (bits k' n)
  end.

(** [j] iterations of [bin_str = '0' + bin_str]. *)
Definition zeros (j : nat) (s : string) : string :=
  Nat.iter j (String "0") s.

(** *** Compute instructions *)

(** A compute instruction written from its clauses:
    [dest=comp;jump], with the destination and the jump optional. *)
Definition dest_clause (dest : option string) : string :=
  match dest with Some d => d +:+ "=" | None => EmptyString end.
Definition jump_clause (jmp : option string) : string :=
  match jmp with Some j => ";" +:+ j | None => EmptyString end.
Definition c_instr (dest : option string) (comp : string)
    (jmp : option string) : string :=
  dest_clause dest +:+ comp +:+ jump_clause jmp.

(** A clause holds neither of the two separators. *)
Definition plain (s : string) : Prop :=
  Py.find "=" s = None ∧ Py.find ";" s = None.
Definition plain_clause (o : option string) : Prop :=
  match o with Some s => plain s | None => True end.

(** The key looked up for an optional clause. *)
Definition mnemonic (o : option string) : string :=
  match o with
  | Some s => if String.eqb s EmptyString then "null" else s
  | None => "null"
  end.

(** *** Shapes of lines and words *)

(** A string without whitespace. *)
Definition no_space (s : string) : bool :=
  string_forall (λ c, negb (Py.isspace c)) s.

(** What [parser] emits: no whitespace and no [/]. *)
Definition clean (s : string) : Prop :=
  no_space s = true ∧ Py.find "/" s = None.

(** The characters of a binary numeral. *)
Definition is_bit (c : ascii) : bool := Ascii.eqb c "0" || Ascii.eqb c "1".
Definition binary (s : string) : bool := string_forall is_bit s.

(** The number a binary numeral stands for, most significant bit first;
    [acc] is the value of the bits already read. *)
Fixpoint bits_value_from (acc : Z) (s : string) : Z :=
  match s with
  | EmptyString => acc
  | String c s' =>
      bits_value_from (2 * acc + (if Ascii.eqb c "1" then 1 else 0)) s'
  end.
Definition bits_value (s : string) : Z := bits_value_from 0 s.

(** No two entries of a code table have the same code, apart from the
    pairs of keys that [allowed] lets through. *)
Definition codes_distinct (allowed : string → string → bool)
    (tbl : list (string * string)) : bool :=
  forallb (λ p, forallb (λ q,
    negb (String.eqb p.2 q.2) || String.eqb p.1 q.1 || allowed p.1 q.1)
    tbl) tbl.

(* ===================================================================== *)
(** ** Generic facts about the loops *)
(* ===================================================================== *)

Section loops.
Context {A B S : Type}.

Lemma for_each_app (body : S → A → result S) (l1 l2 : list A) (s : S) :
  for_each body (l1 ++ l2) s = (for_each body l1 s ≫= for_each body l2).
Proof.
  revert s. induction l1 as [|x l1 IH]; intros s; simpl; [done|].
  destruct (body s x) as [s'|e]; simpl; [apply IH | done].
Qed.

Lemma for_append_cons (body : A → result B) (x : A) (l : list A) :
  for_append body (x :: l) =
  (y ← body x; ys ← for_append body l; OK (y :: ys)).
Proof. reflexivity. Qed.

Lemma for_append_app (body : A → result B) (l1 l2 : list A) :
  for_append body (l1 ++ l2) =
  (ys1 ← for_append body l1; ys2 ← for_append body l2; OK (ys1 ++ ys2)).
Proof.
  induction l1 as [|x l1 IH]; simpl.
  - by destruct (for_append body l2).
  - destruct (body x) as [y|e]; simpl; [|done].
    rewrite IH. destruct (for_append body l1) as [ys1|e]; simpl; [|done].
    by destruct (for_append body l2).
Qed.

Lemma for_append_length (body : A → result B) (l : list A) (ys : list B) :
  for_append body l = OK ys → length ys = length l.
Proof.
  revert ys. induction l as [|x l IH]; intros ys; simpl.
  - by intros [= <-].
  - destruct (body x) as [y|e]; simpl; [|done].
    destruct (for_append body l) as [ys'|e]; simpl; [|done].
    intros [= <-]. simpl. f_equal. by apply IH.
Qed.

Lemma for_append_total (body : A → result B) (l : list A) :
  Forall (λ x, ∃ y, body x = OK y) l → ∃ ys, for_append body l = OK ys.
Proof.
  induction 1 as [|x l [y Hy] _ [ys Hys]]; simpl; [by eexists|].
  rewrite Hy, Hys. simpl. by eexists.
Qed.
End loops.

(* ===================================================================== *)
(** ** The line normalizer *)
(* ===================================================================== *)

Lemma parser_app (l1 l2 : list string) :
  parser (l1 ++ l2) = foldl parser_step (parser l1) l2.
Proof. unfold parser. apply foldl_app. Qed.

Lemma parser_step_acc (acc : list string) (line : string) :
  parser_step acc line = acc ++ parser_step [] line.
Proof.
  unfold parser_step.
  destruct (String.eqb line EmptyString); [by rewrite app_nil_r|].
  destruct (Py.find "/" (Py.remove_whitespace line)) as [ind|]; [|done].
  destruct (negb (ind =? 0)%nat); [done | by rewrite app_nil_r].
Qed.

Lemma parser_foldl_acc (acc : list string) (l : list string) :
  foldl parser_step acc l = acc ++ parser l.
Proof.
  unfold parser. revert acc. induction l as [|x l IH]; intros acc; simpl.
  - by rewrite app_nil_r.
  - rewrite IH, (IH (parser_step [] x)), (parser_step_acc acc x).
    by rewrite app_assoc.
Qed.

Lemma parser_cons (line : string) (l : list string) :
  parser (line :: l) = parser_step [] line ++ parser l.
Proof. unfold parser at 1. simpl. apply parser_foldl_acc. Qed.

Lemma parser_concat (l1 l2 : list string) :
  parser (l1 ++ l2) = parser l1 ++ parser l2.
Proof. rewrite parser_app. apply parser_foldl_acc. Qed.

(** C2, as the code has it: a line whose first [/], once whitespace is
    removed, is at index 0 is dropped; the output is the one the
    surrounding lines alone produce. *)
Theorem parser_drops_leading_slash_line (pre post : list string)
    (line : string) :
  Py.find "/" (Py.remove_whitespace line) = Some 0%nat →
  parser (pre ++ line :: post) = parser (pre ++ post).
Proof.
  intros Hslash. rewrite !parser_concat, parser_cons. f_equal.
  unfold parser_step. rewrite Hslash.
  by destruct (String.eqb line EmptyString).
Qed.

Lemma parser_drops_leading_slash_line_witness :
  Py.find "/" (Py.remove_whitespace "  // set D") = Some 0%nat ∧
  parser (["@2"] ++ "  // set D" :: ["D=A"]) = parser (["@2"] ++ ["D=A"]).
Proof.
  split; [reflexivity|].
  apply (parser_drops_leading_slash_line ["@2"] ["D=A"] "  // set D").
  reflexivity.
Defined.

(** C2 as stated fails: the comment line below is non-empty once
    whitespace is removed, its first [/] is at index 0, and the
    normalizer emits nothing for it. *)
Lemma parser_leading_slash_not_emitted :
  Py.remove_whitespace "// set D" ≠ EmptyString ∧
  Py.find "/" (Py.remove_whitespace "// set D") = Some 0%nat ∧
  parser ["// set D"] = [] ∧
  ¬ In "// set D" (parser ["// set D"]).
Proof. vm_compute. repeat split; done. Qed.

(* ===================================================================== *)
(** ** The label table builder *)
(* ===================================================================== *)

Lemma retained_app (l1 l2 : list string) :
  retained (l1 ++ l2) = retained l1 ++ retained l2.
Proof. apply filter_app. Qed.

Lemma retained_cons_label (line : string) (l : list string) :
  is_label line = true → retained (line :: l) = retained l.
Proof.
  intros H. unfold retained. rewrite filter_cons_False; [done|].
  rewrite H. simpl. tauto.
Qed.

Lemma retained_cons_instr (line : string) (l : list string) :
  is_label line = false → retained (line :: l) = line :: retained l.
Proof.
  intros H. unfold retained. rewrite filter_cons_True; [done|].
  by rewrite H.
Qed.

Lemma retained_not_label (line : string) (l : list string) :
  line ∈ retained l → is_label line = false.
Proof.
  unfold retained. rewrite list_elem_of_filter. intros [H _].
  by destruct (is_label line).
Qed.

(** [remove] deletes the occurrence at hand when no equal line precedes
    it. *)
Lemma list_remove_first (x : string) (pre post : list string) :
  x ∉ pre → Py.list_remove x (pre ++ x :: post) = OK (pre ++ post).
Proof.
  induction pre as [|y pre IH]; intros Hnot; simpl.
  - by rewrite String.eqb_refl.
  - apply not_elem_of_cons in Hnot as [Hne Hnot].
    destruct (String.eqb_spec y x) as [->|_]; [done|].
    by rewrite IH.
Qed.

(** The loop of [label_table], started in the middle: [kept] holds the
    retained lines met so far and [todo] the lines still to visit. *)
Lemma label_loop (todo kept : list string) (t : gmap string Z) (n : Z) :
  Forall (λ line, is_label line = false) kept →
  for_each label_step todo (t, n, kept ++ todo) =
  OK (label_scan t n todo,
      n + Z.of_nat (length (retained todo)),
      kept ++ retained todo).
Proof.
  revert kept t n. induction todo as [|line todo IH]; intros kept t n Hkept.
  - simpl. by rewrite Z.add_0_r.
  - simpl. fold (is_label line). destruct (is_label line) eqn:Hl; simpl.
    + rewrite list_remove_first.
      2:{ intros Hin. rewrite Forall_forall in Hkept.
          specialize (Hkept _ Hin). congruence. }
      simpl. rewrite IH by done. by rewrite retained_cons_label.
    + replace (kept ++ line :: todo) with ((kept ++ [line]) ++ todo)
        by by rewrite <- app_assoc.
      rewrite IH.
      2:{ apply Forall_app. split; [done|]. by constructor. }
      rewrite retained_cons_instr by done. simpl length.
      rewrite <- app_assoc. simpl. do 3 f_equal. lia.
Qed.

(** [label_table] never raises: it returns the scanned table and the
    input without its label declarations. *)
Lemma label_table_eq (instr_lst : list string) :
  label_table instr_lst =
  OK (label_scan ∅ 0 instr_lst, retained instr_lst).
Proof.
  unfold label_table.
  rewrite (label_loop instr_lst [] ∅ 0) by constructor.
  done.
Qed.

Lemma label_scan_app (t : gmap string Z) (n : Z) (l1 l2 : list string) :
  label_scan t n (l1 ++ l2) =
  label_scan (label_scan t n l1) (n + Z.of_nat (length (retained l1))) l2.
Proof.
  revert t n. induction l1 as [|line l1 IH]; intros t n; simpl.
  - by rewrite Z.add_0_r.
  - destruct (is_label line) eqn:Hl.
    + by rewrite IH, retained_cons_label.
    + rewrite IH, retained_cons_instr by done. simpl length.
      f_equal. lia.
Qed.

Lemma label_scan_cons_instr (t : gmap string Z) (n : Z) (line : string)
    (l : list string) :
  is_label line = false →
  label_scan t n (line :: l) = label_scan t (n + 1) l.
Proof. intros H. simpl. by rewrite H. Qed.

Lemma label_scan_other (t : gmap string Z) (n : Z) (l : list string)
    (name : string) :
  Forall (λ line, is_label line = true → label_name line ≠ name) l →
  label_scan t n l !! name = t !! name.
Proof.
  intros H. revert t n.
  induction H as [|line l Hline _ IH]; intros t n; simpl; [done|].
  destruct (is_label line) eqn:Hl.
  - rewrite IH. apply lookup_insert_ne. by apply Hline.
  - apply IH.
Qed.

(** C4: a label declared at [line], and not declared again later, is
    mapped to the number of instructions retained before it; that number
    is the position, in the label-free output, of the first instruction
    retained after the declaration (whatever labels stand in between),
    and the output is the input without its label declarations. *)
Theorem label_table_next_instruction (pre post : list string)
    (line : string) :
  is_label line = true →
  Forall (λ l, is_label l = true → label_name l ≠ label_name line) post →
  ∃ (tbl : gmap string Z) (out : list string) (pos : nat),
    label_table (pre ++ line :: post) = OK (tbl, out) ∧
    out = retained pre ++ retained post ∧
    pos = length (retained pre) ∧
    tbl !! label_name line = Some (Z.of_nat pos) ∧
    out !! pos = head (retained post) ∧
    Forall (λ l, is_label l = false) out.
Proof.
  intros Hl Hpost.
  exists (label_scan ∅ 0 (pre ++ line :: post)),
    (retained pre ++ retained post), (length (retained pre)).
  split; [|split; [done|split; [done|split; [|split]]]].
  - by rewrite label_table_eq, retained_app, retained_cons_label.
  - rewrite label_scan_app. simpl. rewrite Hl.
    rewrite label_scan_other by done. rewrite lookup_insert_eq.
    f_equal; lia.
  - rewrite lookup_app_r by lia. rewrite Nat.sub_diag.
    by destruct (retained post).
  - rewrite <- retained_app. apply Forall_forall. intros l Hin.
    by apply retained_not_label in Hin.
Qed.

Lemma label_table_next_instruction_witness :
  ∃ (tbl : gmap string Z) (out : list string) (pos : nat),
    label_table (["@i"; "M=1"] ++ "(LOOP)" :: ["(END)"; "@LOOP"; "0;JMP"])
      = OK (tbl, out) ∧
    out = retained ["@i"; "M=1"] ++ retained ["(END)"; "@LOOP"; "0;JMP"] ∧
    pos = length (retained ["@i"; "M=1"]) ∧
    tbl !! label_name "(LOOP)" = Some (Z.of_nat pos) ∧
    out !! pos = head (retained ["(END)"; "@LOOP"; "0;JMP"]) ∧
    Forall (λ l, is_label l = false) out.
Proof.
  apply (label_table_next_instruction
           ["@i"; "M=1"] ["(END)"; "@LOOP"; "0;JMP"] "(LOOP)").
  - reflexivity.
  - repeat constructor; vm_compute; congruence.
Defined.

(* ===================================================================== *)
(** ** Slices and indexing *)
(* ===================================================================== *)

Lemma app_cons (c : ascii) (s1 s2 : string) :
  String c s1 +:+ s2 = String c (s1 +:+ s2).
Proof. reflexivity. Qed.

Lemma app_nil_l (s : string) : EmptyString +:+ s = s.
Proof. reflexivity. Qed.

Lemma app_nil_r (s : string) : s +:+ EmptyString = s.
Proof. induction s as [|c s IH]; [done | by rewrite app_cons, IH]. Qed.

Lemma app_assoc (s1 s2 s3 : string) :
  (s1 +:+ s2) +:+ s3 = s1 +:+ (s2 +:+ s3).
Proof.
  induction s1 as [|c s1 IH]; [done | by rewrite !app_cons, IH].
Qed.

Lemma length_app (s1 s2 : string) :
  String.length (s1 +:+ s2) = (String.length s1 + String.length s2)%nat.
Proof.
  induction s1 as [|c s1 IH]; [done|]. rewrite app_cons. simpl. by rewrite IH.
Qed.

Lemma take_length (s : string) : Py.take (String.length s) s = s.
Proof. induction s as [|c s IH]; simpl; [done | by rewrite IH]. Qed.

Lemma take_app (s1 s2 : string) :
  Py.take (String.length s1) (s1 +:+ s2) = s1.
Proof. induction s1 as [|c s1 IH]; simpl; [by destruct s2 | by rewrite IH]. Qed.

Lemma drop_app (s1 s2 : string) :
  Py.drop (String.length s1) (s1 +:+ s2) = s2.
Proof. induction s1 as [|c s1 IH]; simpl; done. Qed.

Lemma clamp_nonneg (n i : Z) : 0 ≤ i → Py.clamp n i = Z.min i n.
Proof. intros H. unfold Py.clamp. destruct (Z.ltb_spec i 0); [lia | done]. Qed.

Lemma clamp_neg (n i : Z) : i < 0 → Py.clamp n i = Z.max (i + n) 0.
Proof. intros H. unfold Py.clamp. destruct (Z.ltb_spec i 0); [done | lia]. Qed.

(** [line[1:]] of a non-empty line is the line without its first
    character. *)
Lemma slice_tail (c : ascii) (s : string) :
  Py.slice (String c s) (Some 1) None = s.
Proof.
  unfold Py.slice, Py.len. rewrite clamp_nonneg by lia.
  simpl String.length. rewrite Z.min_l by lia.
  change (Z.to_nat 1) with 1%nat. simpl Py.drop.
  replace (Z.to_nat _) with (String.length s) by lia.
  apply take_length.
Qed.

(* ===================================================================== *)
(** ** Symbolic operands *)
(* ===================================================================== *)

Lemma var_step_indexable (L C : gmap string Z) (st : gmap string Z * Z)
    (line : string) :
  indexable line → var_step L C st line = OK (var_next L C st line).
Proof.
  intros [Hne Hat]. destruct st as [t p]. unfold var_step, var_next, symbol_of.
  destruct line as [|c0 [|c1 s]]; [done| |].
  - simpl. by destruct (Ascii.eqb_spec c0 "@") as [->|Hc0].
  - change (Py.getitem (String c0 (String c1 s)) 0) with (OK c0).
    change (Py.getitem (String c0 (String c1 s)) 1) with (OK c1).
    simpl mbind. unfold result_bind, rbind. rewrite slice_tail.
    destruct (Ascii.eqb c0 "@"), (Py.isdigit c1); simpl; try done.
    by destruct (negb _ && _ && _).
Qed.

Lemma var_step_OK (L C : gmap string Z) (st st' : gmap string Z * Z)
    (line : string) :
  var_step L C st line = OK st' → indexable line.
Proof.
  destruct st as [t p]. unfold var_step, indexable.
  destruct line as [|c0 [|c1 s]]; [done| |done].
  simpl. destruct (Ascii.eqb_spec c0 "@") as [->|Hc0]; [done|].
  intros _. split; [done|]. congruence.
Qed.

Lemma var_loop_indexable (L C : gmap string Z) (S : list string)
    (st st' : gmap string Z * Z) :
  for_each (var_step L C) S st = OK st' → Forall indexable S.
Proof.
  revert st. induction S as [|line S IH]; intros st; simpl; [by constructor|].
  destruct (var_step L C st line) as [st1|e] eqn:Hstep; simpl; [|done].
  intros H. constructor; [by eapply var_step_OK | by eapply IH].
Qed.

Lemma var_loop_foldl (L C : gmap string Z) (S : list string)
    (st : gmap string Z * Z) :
  Forall indexable S →
  for_each (var_step L C) S st = OK (foldl (var_next L C) st S).
Proof.
  intros H. revert st. induction H as [|line S Hline _ IH]; intros st; [done|].
  simpl. rewrite var_step_indexable by done. simpl. apply IH.
Qed.

(* ===================================================================== *)
(** ** The variable table builder *)
(* ===================================================================== *)

Lemma dict_has_true {V} (d : gmap string V) (k : string) :
  dict_has d k = true ↔ is_Some (d !! k).
Proof.
  unfold dict_has. destruct (d !! k); split; done.
Qed.

Lemma dict_has_false {V} (d : gmap string V) (k : string) :
  dict_has d k = false ↔ d !! k = None.
Proof. unfold dict_has. by destruct (d !! k). Qed.

Lemma elem_of_distinct (x : string) (l : list string) :
  x ∈ distinct l ↔ x ∈ l.
Proof.
  induction l as [|y l IH]; simpl; [done|].
  rewrite !elem_of_cons, list_elem_of_filter, IH.
  destruct (decide (x = y)); intuition congruence.
Qed.

Lemma NoDup_distinct (l : list string) : NoDup (distinct l).
Proof.
  induction l as [|y l IH]; simpl; constructor.
  - rewrite list_elem_of_filter. tauto.
  - by apply NoDup_filter.
Qed.

Lemma filter_ne_id (x : string) (l : list string) :
  x ∉ l → filter (λ y, y ≠ x) l = l.
Proof.
  induction l as [|y l IH]; intros Hx; [done|].
  apply not_elem_of_cons in Hx as [Hne Hx].
  rewrite filter_cons_True by done. by rewrite IH.
Qed.

Lemma filter_comm {A} (P Q : A → Prop) `{∀ x, Decision (P x)}
    `{∀ x, Decision (Q x)} (l : list A) :
  filter P (filter Q l) = filter Q (filter P l).
Proof.
  rewrite !list_filter_filter. apply list_filter_iff. tauto.
Qed.

Lemma filter_distinct (P : string → Prop) `{∀ x, Decision (P x)}
    (l : list string) :
  filter P (distinct l) = distinct (filter P l).
Proof.
  induction l as [|x l IH]; simpl; [done|].
  destruct (decide (P x)) as [HP|HP].
  - rewrite !filter_cons_True by done. simpl.
    by rewrite filter_comm, IH.
  - rewrite !filter_cons_False by done.
    rewrite filter_comm, IH. apply filter_ne_id.
    rewrite elem_of_distinct, list_elem_of_filter. tauto.
Qed.

Lemma fresh_insert (L C t : gmap string Z) (s x : string) (p : Z) :
  fresh L C (<[s := p]> t) x ↔ x ≠ s ∧ fresh L C t x.
Proof.
  unfold fresh, dict_has. destruct (decide (s = x)) as [->|Hne].
  - rewrite lookup_insert_eq, andb_false_r. simpl. tauto.
  - rewrite lookup_insert_ne by done. intuition congruence.
Qed.

(** The loop of [var_table] from any state: the symbols that are fresh
    for that state get the next addresses in order of first occurrence. *)
Lemma var_loop_alloc (L C : gmap string Z) (S : list string)
    (t : gmap string Z) (p : Z) :
  let order := distinct (filter (λ s, fresh L C t s) (symbols S)) in
  foldl (var_next L C) (t, p) S =
  (alloc t p order, p + Z.of_nat (length order)).
Proof.
  revert t p. induction S as [|line S IH]; intros t p; simpl.
  - by rewrite Z.add_0_r.
  - unfold var_next at 2, symbols. simpl omap.
    destruct (symbol_of line) as [s|]; simpl fst; simpl snd; [|apply IH].
    fold (symbols S). fold (fresh L C t s).
    destruct (fresh L C t s) eqn:Hf.
    + rewrite IH. rewrite filter_cons_True by by rewrite Hf.
      simpl distinct. rewrite filter_distinct, list_filter_filter.
      rewrite (list_filter_iff (λ a, a ≠ s ∧ fresh L C t a)
                 (λ x, fresh L C (<[s:=p]> t) x)).
      2:{ intros x. by rewrite fresh_insert. }
      simpl. f_equal. lia.
    + rewrite IH. rewrite filter_cons_False; [done|].
      rewrite Hf. simpl. tauto.
Qed.

Lemma alloc_lookup_other (t : gmap string Z) (p : Z) (order : list string)
    (s : string) :
  s ∉ order → alloc t p order !! s = t !! s.
Proof.
  revert t p. induction order as [|x order IH]; intros t p Hs; simpl; [done|].
  apply not_elem_of_cons in Hs as [Hne Hs].
  rewrite IH by done. by apply lookup_insert_ne.
Qed.

Lemma alloc_lookup_nth (t : gmap string Z) (p : Z) (order : list string)
    (k : nat) (s : string) :
  NoDup order → order !! k = Some s →
  alloc t p order !! s = Some (p + Z.of_nat k).
Proof.
  intros Hnd. revert t p k.
  induction Hnd as [|x order Hx _ IH]; intros t p k; [done|].
  destruct k as [|k]; simpl.
  - intros [= ->]. rewrite alloc_lookup_other by done.
    rewrite lookup_insert_eq. f_equal. lia.
  - intros Hk. rewrite (IH _ _ k) by done. f_equal. lia.
Qed.

Lemma alloc_lookup (p : Z) (order : list string) (k : nat) (s : string) :
  NoDup order →
  order !! k = Some s ↔ alloc ∅ p order !! s = Some (p + Z.of_nat k).
Proof.
  intros Hnd. split; [by apply alloc_lookup_nth|].
  intros Hs. destruct (decide (s ∈ order)) as [Hin|Hout].
  - apply list_elem_of_lookup in Hin as [k' Hk'].
    rewrite (alloc_lookup_nth _ _ _ _ _ Hnd Hk') in Hs.
    assert (k = k') as -> by (injection Hs; lia). done.
  - rewrite alloc_lookup_other in Hs by done. done.
Qed.

Lemma var_table_eq (L C : gmap string Z) (S : list string) :
  Forall indexable S →
  var_table S L C = OK (alloc ∅ 16 (new_symbols L C S)).
Proof.
  intros HS. unfold var_table. rewrite var_loop_foldl by done.
  by rewrite var_loop_alloc.
Qed.

Lemma elem_of_new_symbols (L C : gmap string Z) (S : list string)
    (s : string) :
  s ∈ new_symbols L C S ↔ s ∈ symbols S ∧ L !! s = None ∧ C !! s = None.
Proof.
  unfold new_symbols. rewrite elem_of_distinct, list_elem_of_filter.
  unfold fresh. rewrite !andb_True, !negb_True.
  rewrite !Is_true_false, !dict_has_false, lookup_empty. tauto.
Qed.

Lemma filter_all {A} (P : A → Prop) `{∀ x, Decision (P x)} (l : list A) :
  Forall P l → filter P l = l.
Proof.
  induction 1 as [|x l Hx _ IH]; [done|].
  by rewrite filter_cons_True, IH.
Qed.

Lemma distinct_app (l1 l2 : list string) :
  distinct (l1 ++ l2) = distinct l1 ++ filter (λ y, y ∉ l1) (distinct l2).
Proof.
  induction l1 as [|x l1 IH]; simpl.
  - rewrite filter_all; [done|]. apply Forall_forall. intros y _.
    apply not_elem_of_nil.
  - rewrite IH, filter_app, list_filter_filter. do 2 f_equal.
    apply list_filter_iff. intros y. rewrite not_elem_of_cons. tauto.
Qed.

Lemma symbols_app (S1 S2 : list string) :
  symbols (S1 ++ S2) = symbols S1 ++ symbols S2.
Proof. apply omap_app. Qed.

(** At its first occurrence a new symbol comes right after the new
    symbols of the lines before it. *)
Lemma new_symbols_first_occurrence (L C : gmap string Z)
    (pre post : list string) (line s : string) :
  symbol_of line = Some s → s ∉ symbols pre →
  L !! s = None → C !! s = None →
  new_symbols L C (pre ++ line :: post) !! length (new_symbols L C pre)
  = Some s.
Proof.
  intros Hsym Hfirst HL HC. unfold new_symbols.
  rewrite symbols_app, filter_app, distinct_app.
  rewrite lookup_app_r by lia. rewrite Nat.sub_diag.
  assert (symbols (line :: post) = s :: symbols post) as ->
    by (unfold symbols; simpl; by rewrite Hsym).
  assert (fresh L C ∅ s) as Hfresh.
  { unfold fresh, dict_has. by rewrite HL, HC, lookup_empty. }
  rewrite filter_cons_True by done. simpl distinct.
  rewrite filter_cons_True; [done|].
  rewrite list_elem_of_filter. tauto.
Qed.

(** C6: on a program whose lines can be indexed, [var_table] returns a
    table that maps the [k]-th symbol, in order of first occurrence among
    the symbolic operands of address instructions that are neither labels
    nor constants, to address [16 + k], and holds nothing else.  A symbol
    gets its address where it first occurs, from the lines before it
    alone; the first two new symbols get 16 and 17 however often they
    occur again. *)
Theorem var_table_first_occurrence_order (L C : gmap string Z)
    (S : list string) :
  Forall indexable S →
  ∃ V : gmap string Z,
    var_table S L C = OK V ∧
    NoDup (new_symbols L C S) ∧
    (∀ s, s ∈ new_symbols L C S ↔
          s ∈ symbols S ∧ L !! s = None ∧ C !! s = None) ∧
    (∀ (k : nat) (s : string),
       new_symbols L C S !! k = Some s ↔ V !! s = Some (16 + Z.of_nat k)) ∧
    (∀ s, is_Some (V !! s) → s ∈ new_symbols L C S) ∧
    (∀ pre line post s,
       S = pre ++ line :: post → symbol_of line = Some s →
       s ∉ symbols pre → L !! s = None → C !! s = None →
       V !! s = Some (16 + Z.of_nat (length (new_symbols L C pre)))) ∧
    (∀ foo bar rest, new_symbols L C S = foo :: bar :: rest →
       V !! foo = Some 16 ∧ V !! bar = Some 17).
Proof.
  intros HS. exists (alloc ∅ 16 (new_symbols L C S)).
  pose proof (NoDup_distinct (filter (λ s, fresh L C ∅ s) (symbols S)))
    as Hnd. fold (new_symbols L C S) in Hnd.
  split; [by apply var_table_eq|]. split; [done|].
  split; [apply elem_of_new_symbols|]. split; [|split; [|split]].
  - intros k s. by apply alloc_lookup.
  - intros s [v Hv]. destruct (decide (s ∈ new_symbols L C S)); [done|].
    rewrite alloc_lookup_other in Hv by done. done.
  - intros pre line post s -> Hsym Hfirst HL HC.
    apply alloc_lookup_nth; [done|].
    by apply new_symbols_first_occurrence.
  - intros foo bar rest Heq. split.
    + change 16 with (16 + Z.of_nat 0) at 2.
      apply alloc_lookup_nth; [done | by rewrite Heq].
    + change 17 with (16 + Z.of_nat 1).
      apply alloc_lookup_nth; [done | by rewrite Heq].
Qed.

Lemma var_table_first_occurrence_order_witness :
  ∃ V : gmap string Z,
    var_table
      ["@foo"; "M=1"; "@bar"; "M=0"; "@foo"; "D=M"; "@bar"; "@SCREEN";
       "@foo"; "@7"] ∅ const_table = OK V ∧
    V !! "foo" = Some 16 ∧ V !! "bar" = Some 17.
Proof.
  destruct (var_table_first_occurrence_order ∅ const_table
    ["@foo"; "M=1"; "@bar"; "M=0"; "@foo"; "D=M"; "@bar"; "@SCREEN";
     "@foo"; "@7"]) as (V & HV & _ & _ & _ & _ & _ & Hfirst).
  - repeat constructor; done.
  - exists V. split; [exact HV|]. apply (Hfirst "foo" "bar" []).
    vm_compute. reflexivity.
Defined.

(* ===================================================================== *)
(** ** The symbol resolver *)
(* ===================================================================== *)

(** Lookup in the merged table [{**lbl_tbl, **const_tbl, **var_tbl}]. *)
Lemma merged_lookup (L C V : gmap string Z) (s : string) :
  Py.dict_merge (Py.dict_merge L C) V !! s =
  match V !! s with
  | Some v => Some v
  | None => match C !! s with Some v => Some v | None => L !! s end
  end.
Proof.
  unfold Py.dict_merge. rewrite !lookup_union.
  by destruct (V !! s), (C !! s), (L !! s).
Qed.

(** One iteration of [refer_to_num] on an indexable line. *)
Lemma refer_line_indexable (tbl : gmap string Z) (line : string) :
  indexable line →
  refer_line tbl line =
  match symbol_of line with
  | Some symb => v ← Py.dict_get tbl symb; OK ("@" +:+ Py.str v)
  | None => OK line
  end.
Proof.
  intros [Hne Hat]. unfold refer_line, symbol_of.
  destruct line as [|c0 [|c1 s]]; [done| |].
  - simpl. by destruct (Ascii.eqb_spec c0 "@") as [->|Hc0].
  - change (Py.getitem (String c0 (String c1 s)) 0) with (OK c0).
    change (Py.getitem (String c0 (String c1 s)) 1) with (OK c1).
    simpl mbind. unfold result_bind, rbind. rewrite slice_tail.
    by destruct (Ascii.eqb c0 "@"), (Py.isdigit c1).
Qed.

Lemma refer_line_symbol (tbl : gmap string Z) (c : ascii) (s : string)
    (v : Z) :
  Py.isdigit c = false → tbl !! String c s = Some v →
  refer_line tbl (String "@" (String c s)) = OK ("@" +:+ Py.str v).
Proof.
  intros Hc Hv. rewrite refer_line_indexable by done.
  simpl. rewrite Hc. simpl. unfold Py.dict_get. by rewrite Hv.
Qed.

(** C1, as the code has it: a symbolic operand is replaced by the value
    of the variable table when it is a key there, else by the value of
    the constant table, and by the value of the label table only when it
    is a key of neither; the lines around it are resolved as they are on
    their own. *)
Theorem refer_to_num_precedence (L C V : gmap string Z)
    (pre post pre' post' : list string) (c : ascii) (s : string) (v : Z) :
  Py.isdigit c = false →
  V !! String c s = Some v
  ∨ (V !! String c s = None ∧ C !! String c s = Some v)
  ∨ (V !! String c s = None ∧ C !! String c s = None
     ∧ L !! String c s = Some v) →
  refer_to_num pre L C V = OK pre' →
  refer_to_num post L C V = OK post' →
  refer_to_num (pre ++ String "@" (String c s) :: post) L C V
  = OK (pre' ++ ("@" +:+ Py.str v) :: post').
Proof.
  intros Hc Hv Hpre Hpost. unfold refer_to_num in *.
  rewrite for_append_app, Hpre. simpl for_append.
  rewrite (refer_line_symbol _ c s v), Hpost; [done..|].
  rewrite merged_lookup.
  destruct Hv as [->|[[-> ->]|(-> & -> & ->)]]; done.
Qed.

Lemma refer_to_num_precedence_witness :
  refer_to_num (["@R1"] ++ "@x" :: ["D=M"])
    {["x" := 1]} (<["x" := 2]> const_table) {["x" := 3]}
  = OK (["@1"] ++ "@3" :: ["D=M"]).
Proof.
  apply (refer_to_num_precedence
           {["x" := 1]} (<["x" := 2]> const_table) {["x" := 3]}
           ["@R1"] ["D=M"] ["@1"] ["D=M"] "x" EmptyString 3).
  - reflexivity.
  - left. reflexivity.
  - reflexivity.
  - reflexivity.
Defined.

(** C1 as stated fails: [SCREEN] is a key of the label table and of the
    constant table, and the resolver takes the constant's value 16384,
    not the label's; the same happens through [main] when a program
    declares the label [(SCREEN)]. *)
Lemma refer_to_num_label_not_first :
  ({["SCREEN" := 7]} : gmap string Z) !! "SCREEN" = Some 7 ∧
  const_table !! "SCREEN" = Some 16384 ∧
  refer_to_num ["@SCREEN"] {["SCREEN" := 7]} const_table ∅
    = OK ["@16384"] ∧
  refer_to_num ["@SCREEN"] {["SCREEN" := 7]} const_table ∅
    ≠ OK ["@7"] ∧
  main ["@0"; "(SCREEN)"; "@SCREEN"]
    = OK ["0000000000000000"; "0100000000000000"].
Proof. vm_compute. repeat split; done. Qed.

(** C3: when [var_table] has built [V] from the program, every symbolic
    operand of the program is a key of the label table, the constant
    table or [V], and [refer_to_num] on that program returns a list, of
    the same length, without raising. *)
Theorem refer_to_num_after_var_table (S : list string)
    (L C V : gmap string Z) :
  var_table S L C = OK V →
  (∀ line symb, line ∈ S → symbol_of line = Some symb →
     is_Some (L !! symb) ∨ is_Some (C !! symb) ∨ is_Some (V !! symb)) ∧
  ∃ S', refer_to_num S L C V = OK S' ∧ length S' = length S.
Proof.
  intros HV.
  assert (Forall indexable S) as HS.
  { unfold var_table in HV.
    destruct (for_each (var_step L C) S (∅, 16)) as [st|e] eqn:Hloop;
      [|done].
    by eapply var_loop_indexable. }
  rewrite var_table_eq in HV by done. injection HV as <-.
  assert (∀ line symb, line ∈ S → symbol_of line = Some symb →
     is_Some (L !! symb) ∨ is_Some (C !! symb)
     ∨ is_Some (alloc ∅ 16 (new_symbols L C S) !! symb)) as Hkeys.
  { intros line symb Hin Hsym.
    destruct (L !! symb) as [v|] eqn:HL; [by left|].
    destruct (C !! symb) as [v|] eqn:HC; [by right; left|].
    right; right.
    assert (symb ∈ new_symbols L C S) as Hnew.
    { apply elem_of_new_symbols. split; [|done].
      unfold symbols. apply list_elem_of_omap. by exists line. }
    apply list_elem_of_lookup in Hnew as [k Hk].
    rewrite (alloc_lookup_nth _ _ _ k symb); [done| |done].
    apply NoDup_distinct. }
  split; [done|].
  assert (∃ S', refer_to_num S L C (alloc ∅ 16 (new_symbols L C S)) = OK S')
    as [S' HS'].
  { apply for_append_total. apply Forall_forall. intros line Hin.
    rewrite Forall_forall in HS. rewrite refer_line_indexable by auto.
    destruct (symbol_of line) as [symb|] eqn:Hsym; [|by eexists].
    unfold Py.dict_get. rewrite merged_lookup.
    destruct (Hkeys line symb Hin Hsym) as [[v Hv]|[[v Hv]|[v Hv]]];
      rewrite ?Hv;
      repeat match goal with
             | |- context [match ?m !! symb with _ => _ end] =>
                 destruct (m !! symb)
             end; simpl; by eexists. }
  exists S'. split; [done|]. by eapply for_append_length.
Qed.

Lemma refer_to_num_after_var_table_witness :
  ∃ S', refer_to_num ["@i"; "M=1"; "@LOOP"; "@KBD"; "@i"; "@12"]
          {["LOOP" := 2]} const_table {["i" := 16]} = OK S'
        ∧ length S' = 6%nat.
Proof.
  apply (refer_to_num_after_var_table
           ["@i"; "M=1"; "@LOOP"; "@KBD"; "@i"; "@12"]
           {["LOOP" := 2]} const_table {["i" := 16]}).
  vm_compute. reflexivity.
Defined.

(* ===================================================================== *)
(** ** Decimal numerals: [int(str(n))] *)
(* ===================================================================== *)

Lemma digit_value_char (d : Z) :
  0 ≤ d < 10 → Py.digit_value (Py.digit_char d) = Some d.
Proof.
  intros Hd.
  assert (d = 0 ∨ d = 1 ∨ d = 2 ∨ d = 3 ∨ d = 4 ∨ d = 5 ∨ d = 6 ∨ d = 7
          ∨ d = 8 ∨ d = 9) as Hcases by lia.
  repeat destruct Hcases as [->|Hcases]; try subst d; reflexivity.
Qed.

Lemma is_digit_not_space (c : ascii) :
  is_digit c = true → Py.isspace c = false.
Proof.
  unfold is_digit, Py.digit_value, Py.isspace.
  set (n := Z.of_nat (nat_of_ascii c)).
  destruct (Z.leb_spec 48 n), (Z.leb_spec n 57); simpl; try done.
  intros _.
  destruct (Z.leb_spec 9 n), (Z.leb_spec n 13), (Z.leb_spec 28 n),
    (Z.leb_spec n 32), (Z.eqb_spec n 133), (Z.eqb_spec n 160);
    simpl; try done; lia.
Qed.

Lemma is_digit_not_sign (c : ascii) :
  is_digit c = true → Ascii.eqb c "-" = false ∧ Ascii.eqb c "+" = false.
Proof.
  intros Hc.
  split; apply Ascii.eqb_neq; intros ->; vm_compute in Hc; done.
Qed.

Lemma str_digits_forall (fuel : nat) (n : Z) (acc : string) :
  0 ≤ n → string_forall is_digit acc = true →
  string_forall is_digit (Py.str_digits fuel n acc) = true.
Proof.
  revert n acc. induction fuel as [|fuel IH]; intros n acc Hn Hacc; [done|].
  simpl.
  assert (string_forall is_digit
            (String (Py.digit_char (n mod 10)) acc) = true) as Hacc'.
  { simpl. rewrite Hacc, andb_true_r. unfold is_digit.
    rewrite digit_value_char; [done|]. apply Z.mod_pos_bound. lia. }
  destruct (n / 10 =? 0); [done|].
  apply IH; [|done]. apply Z.div_pos; lia.
Qed.

Lemma str_digits_nonempty (fuel : nat) (n : Z) (acc : string) :
  ∃ c t, Py.str_digits (S fuel) n acc = String c t.
Proof.
  revert n acc. induction fuel as [|fuel IH]; intros n acc.
  - simpl. destruct (n / 10 =? 0); by eexists _, _.
  - change (Py.str_digits (S (S fuel)) n acc) with
      (let acc' := String (Py.digit_char (n mod 10)) acc in
       if n / 10 =? 0 then acc' else Py.str_digits (S fuel) (n / 10) acc').
    simpl. destruct (n / 10 =? 0); [by eexists _, _ | apply IH].
Qed.

(** Reading back the digits written by [str_digits], when the fuel
    covers the binary size of the number. *)
Lemma int_digits_str_digits (fuel : nat) (n : Z) (acc : string)
    (prev : bool) :
  0 ≤ n < 2 ^ Z.of_nat (S fuel) →
  Py.int_digits (Py.str_digits (S fuel) n acc) 0 prev =
  Py.int_digits acc n true.
Proof.
  revert n acc prev.
  induction fuel as [|fuel IH]; intros n acc prev Hn;
    assert (0 ≤ n mod 10 < 10) as Hmod by (apply Z.mod_pos_bound; lia);
    assert (n = 10 * (n / 10) + n mod 10) as Hdiv by (apply Z.div_mod; lia);
    assert (0 ≤ n / 10) as Hquot by (apply Z.div_pos; lia).
  - change (2 ^ Z.of_nat 1) with 2 in Hn.
    assert (n / 10 = 0) as H0 by (apply Z.div_small; lia).
    simpl. rewrite H0. simpl. rewrite digit_value_char by done.
    f_equal. lia.
  - change (Py.str_digits (S (S fuel)) n acc) with
      (let acc' := String (Py.digit_char (n mod 10)) acc in
       if n / 10 =? 0 then acc' else Py.str_digits (S fuel) (n / 10) acc').
    cbv zeta. destruct (Z.eqb_spec (n / 10) 0) as [H0|H0].
    + simpl. rewrite digit_value_char by done. f_equal. lia.
    + rewrite IH.
      * simpl. rewrite digit_value_char by done. f_equal. lia.
      * split; [done|].
        rewrite Nat2Z.inj_succ, Z.pow_succ_r in Hn by lia.
        apply Z.div_lt_upper_bound; lia.
Qed.

Lemma string_forall_impl (P Q : ascii → bool) (s : string) :
  (∀ c, P c = true → Q c = true) →
  string_forall P s = true → string_forall Q s = true.
Proof.
  intros HPQ. induction s as [|c s IH]; simpl; [done|].
  intros [Hc Hs]%andb_true_iff. by rewrite (HPQ c Hc), IH.
Qed.

Lemma rstrip_id (s : string) :
  string_forall (λ c, negb (Py.isspace c)) s = true → Py.rstrip s = s.
Proof.
  induction s as [|c s IH]; simpl; [done|].
  intros [Hc Hs]%andb_true_iff. rewrite IH by done.
  apply negb_true_iff in Hc. rewrite Hc. by destruct s.
Qed.

Lemma str_fuel_bound (n : Z) : 0 ≤ n → n < 2 ^ Z.of_nat (Py.str_fuel n).
Proof.
  intros Hn. unfold Py.str_fuel.
  pose proof (Z.log2_nonneg n) as Hlog.
  rewrite Nat2Z.inj_succ, Z2Nat.id by done.
  destruct (Z.eq_dec n 0) as [->|Hne]; [done|].
  apply Z.log2_spec. lia.
Qed.

(** The digits written for a natural number are read back as that
    number, with nothing to strip and no sign. *)
Lemma digits_read_back (n : Z) :
  0 ≤ n →
  ∃ c t, Py.str_digits (Py.str_fuel n) n EmptyString = String c t ∧
         string_forall is_digit (String c t) = true ∧
         Py.int_digits (String c t) 0 false = Some n.
Proof.
  intros Hn. pose proof (str_fuel_bound n Hn) as Hfuel.
  unfold Py.str_fuel in *. set (fuel := Z.to_nat (Z.log2 n)) in *.
  destruct (str_digits_nonempty fuel n EmptyString) as (c & t & Heq).
  exists c, t. split; [done|]. rewrite <- Heq. split.
  - by apply str_digits_forall.
  - rewrite int_digits_str_digits by lia. done.
Qed.

Lemma int_str (n : Z) : Py.int (Py.str n) = OK n.
Proof.
  unfold Py.str. destruct (Z.ltb_spec n 0) as [Hneg|Hpos].
  - destruct (digits_read_back (- n)) as (c & t & -> & Hdig & Hread);
      [lia|].
    assert (string_forall (λ c, negb (Py.isspace c)) (String c t) = true)
      as Hsp.
    { apply (string_forall_impl is_digit); [|done].
      intros d Hd. by rewrite is_digit_not_space. }
    unfold Py.int. change (Py.lstrip (String "-" (String c t)))
      with (String "-" (String c t)).
    rewrite rstrip_id by (simpl; by rewrite <- Hsp).
    change (Ascii.eqb "-" "-") with true. cbv iota.
    rewrite Hread. simpl. f_equal. lia.
  - destruct (digits_read_back n) as (c & t & -> & Hdig & Hread); [done|].
    assert (string_forall (λ c, negb (Py.isspace c)) (String c t) = true)
      as Hsp.
    { apply (string_forall_impl is_digit); [|done].
      intros d Hd. by rewrite is_digit_not_space. }
    assert (is_digit c = true) as Hc.
    { simpl in Hdig. by apply andb_true_iff in Hdig as [? _]. }
    unfold Py.int. simpl Py.lstrip.
    rewrite (is_digit_not_space c Hc).
    rewrite rstrip_id by done.
    destruct (is_digit_not_sign c Hc) as [-> ->].
    by rewrite Hread.
Qed.

(* ===================================================================== *)
(** ** Binary numerals: [bin(n)[2:]] and the padding loop *)
(* ===================================================================== *)

Lemma zeros_app (j : nat) (s1 s2 : string) :
  zeros j (s1 +:+ s2) = zeros j s1 +:+ s2.
Proof. induction j as [|j IH]; simpl; [done | by rewrite IH]. Qed.

Lemma bin_digits_acc (p : positive) (acc : string) :
  Py.bin_digits p acc = Py.bin_digits p EmptyString +:+ acc.
Proof.
  revert acc. induction p as [p IH|p IH|]; intros acc; simpl; [| |done].
  - rewrite IH, (IH "1"). by rewrite app_assoc.
  - rewrite IH, (IH "0"). by rewrite app_assoc.
Qed.

Lemma bin_digits_length (p : positive) :
  String.length (Py.bin_digits p EmptyString) = Pos.size_nat p.
Proof.
  induction p as [p IH|p IH|]; simpl; [| |done];
    rewrite bin_digits_acc, length_app, IH; simpl; lia.
Qed.

Lemma bits_snoc (k : nat) (n : Z) (b : bool) :
  bits (S k) (2 * n + Z.b2z b) =
  bits k n +:+ String (if b then "1" else "0")%char EmptyString.
Proof.
  induction k as [|k IH].
  - cbv [bits]. change (Z.of_nat 0) with 0. by rewrite Z.testbit_0_r.
  - change (bits (S (S k)) (2 * n + Z.b2z b)) with
      (String (if Z.testbit (2 * n + Z.b2z b) (Z.of_nat (S k))
               then "1" else "0")%char (bits (S k) (2 * n + Z.b2z b))).
    rewrite IH, Nat2Z.inj_succ, Z.testbit_succ_r by lia. done.
Qed.

Lemma bits_zero (k : nat) : bits k 0 = zeros k EmptyString.
Proof.
  induction k as [|k IH]; simpl; [done|].
  by rewrite Z.testbit_0_l, IH.
Qed.

(** The padding loop turns the digits of [bin] into the [k]-bit
    representation, as long as they fit. *)
Lemma zeros_bin_digits (p : positive) (k : nat) :
  (Pos.size_nat p ≤ k)%nat →
  zeros (k - Pos.size_nat p) (Py.bin_digits p EmptyString) = bits k (Zpos p).
Proof.
  revert k. induction p as [p IH|p IH|]; intros k Hk; simpl in Hk.
  - destruct k as [|k]; [lia|]. simpl Py.bin_digits.
    rewrite bin_digits_acc, zeros_app.
    replace (S k - Pos.size_nat p~1)%nat with (k - Pos.size_nat p)%nat
      by (simpl; lia).
    rewrite IH by lia.
    change (Z.pos p~1) with (2 * Z.pos p + Z.b2z true).
    by rewrite bits_snoc.
  - destruct k as [|k]; [lia|]. simpl Py.bin_digits.
    rewrite bin_digits_acc, zeros_app.
    replace (S k - Pos.size_nat p~0)%nat with (k - Pos.size_nat p)%nat
      by (simpl; lia).
    rewrite IH by lia.
    change (Z.pos p~0) with (2 * Z.pos p + Z.b2z false).
    by rewrite bits_snoc.
  - destruct k as [|k]; [lia|]. simpl Pos.size_nat.
    replace (S k - 1)%nat with k by lia.
    change 1 with (2 * 0 + Z.b2z true).
    rewrite bits_snoc, bits_zero. by rewrite <- zeros_app.
Qed.

Lemma bits_length (k : nat) (n : Z) : String.length (bits k n) = k.
Proof. induction k as [|k IH]; simpl; [done | by rewrite IH]. Qed.

Lemma size_nat_bound (p : positive) (k : nat) :
  Z.pos p < 2 ^ Z.of_nat k → (Pos.size_nat p ≤ k)%nat.
Proof.
  revert k. induction p as [p IH|p IH|]; intros [|k] Hp; simpl in *;
    try lia; rewrite Nat2Z.inj_succ, Z.pow_succ_r in Hp by lia.
  - specialize (IH k). lia.
  - specialize (IH k). lia.
Qed.

(** [s[2:]] of a string of at least two characters. *)
Lemma slice_tail2 (c1 c2 : ascii) (s : string) :
  Py.slice (String c1 (String c2 s)) (Some 2) None = s.
Proof.
  unfold Py.slice, Py.len. rewrite clamp_nonneg by lia.
  simpl String.length. rewrite Z.min_l by lia.
  change (Z.to_nat 2) with 2%nat. simpl Py.drop.
  replace (Z.to_nat _) with (String.length s) by lia.
  apply take_length.
Qed.

(* ===================================================================== *)
(** ** The address-instruction encoder *)
(* ===================================================================== *)

(** An operand below [2^16] is written on exactly 16 bits. *)
Lemma a_instr_encoder_bits (N : Z) :
  0 ≤ N < 65536 →
  a_instr_encoder ("@" +:+ Py.str N) = OK (bits 16 N).
Proof.
  intros HN. unfold a_instr_encoder.
  rewrite app_cons, app_nil_l, slice_tail, int_str. simpl mbind.
  unfold result_bind, rbind. f_equal.
  destruct N as [|p|p]; [reflexivity| |lia].
  unfold Py.bin. rewrite !app_cons, app_nil_l, slice_tail2.
  unfold Py.len. rewrite bin_digits_length.
  assert (Pos.size_nat p ≤ 16)%nat as Hsize
    by (apply size_nat_bound; simpl; lia).
  replace (Z.to_nat (16 - Z.of_nat (Pos.size_nat p)))
    with (16 - Pos.size_nat p)%nat by lia.
  by apply zeros_bin_digits.
Qed.

(** C7: for [0 <= N <= 32767] the encoding of [@N] is a ['0'] followed
    by the 15-bit zero-padded binary representation of [N], 16
    characters in all. *)
Theorem a_instr_encoder_15_bits (N : Z) :
  0 ≤ N ≤ 32767 →
  a_instr_encoder ("@" +:+ Py.str N) = OK (String "0" (bits 15 N)) ∧
  String.length (String "0" (bits 15 N)) = 16%nat.
Proof.
  intros HN. split; [|exact (f_equal S (bits_length 15 N))].
  rewrite a_instr_encoder_bits by lia.
  change (bits 16 N) with
    (String (if Z.testbit N 15 then "1" else "0")%char (bits 15 N)).
  destruct (Z.eq_dec N 0) as [->|Hne]; [done|].
  rewrite Z.bits_above_log2; [done|lia|].
  apply Z.log2_lt_pow2; lia.
Qed.

Lemma a_instr_encoder_15_bits_witness :
  a_instr_encoder "@0" = OK "0000000000000000" ∧
  a_instr_encoder "@32767" = OK "0111111111111111".
Proof.
  split.
  - apply (a_instr_encoder_15_bits 0). lia.
  - apply (a_instr_encoder_15_bits 32767). lia.
Defined.

(** C10: for [32768 <= N <= 65535] the encoder raises nothing and
    returns 16 characters of which the first is ['1']. *)
Theorem a_instr_encoder_out_of_range (N : Z) :
  32768 ≤ N ≤ 65535 →
  a_instr_encoder ("@" +:+ Py.str N) = OK (String "1" (bits 15 N)) ∧
  String.length (String "1" (bits 15 N)) = 16%nat.
Proof.
  intros HN. split; [|exact (f_equal S (bits_length 15 N))].
  rewrite a_instr_encoder_bits by lia.
  change (bits 16 N) with
    (String (if Z.testbit N 15 then "1" else "0")%char (bits 15 N)).
  assert (Z.log2 N = 15) as Hlog by (apply Z.log2_unique; simpl; lia).
  rewrite <- Hlog at 1. rewrite Z.bit_log2 by lia. done.
Qed.

Lemma a_instr_encoder_out_of_range_witness :
  a_instr_encoder "@32768" = OK "1000000000000000" ∧
  a_instr_encoder "@65535" = OK "1111111111111111".
Proof.
  split.
  - apply (a_instr_encoder_out_of_range 32768). lia.
  - apply (a_instr_encoder_out_of_range 65535). lia.
Defined.

(* ===================================================================== *)
(** ** The compute-instruction encoder *)
(* ===================================================================== *)

Lemma find_app (c : ascii) (s1 s2 : string) :
  Py.find c (s1 +:+ s2) =
  match Py.find c s1 with
  | Some i => Some i
  | None => (λ i, String.length s1 + i)%nat <$> Py.find c s2
  end.
Proof.
  induction s1 as [|d s1 IH].
  - rewrite app_nil_l. simpl. by destruct (Py.find c s2).
  - rewrite app_cons. simpl. destruct (Ascii.eqb d c); [done|].
    rewrite IH. destruct (Py.find c s1); [done|].
    by destruct (Py.find c s2).
Qed.

Lemma drop_app_length (s1 s2 : string) (n : nat) :
  n = String.length s1 → Py.drop n (s1 +:+ s2) = s2.
Proof. intros ->. apply drop_app. Qed.

Lemma take_app_length (s1 s2 : string) (n : nat) :
  n = String.length s1 → Py.take n (s1 +:+ s2) = s1.
Proof. intros ->. apply take_app. Qed.

(** The slice between two positions of a three-part string. *)
Lemma slice_parts (a b c : string) (lo hi : Z) :
  Py.clamp (Py.len (a +:+ b +:+ c)) lo = Py.len a →
  Py.clamp (Py.len (a +:+ b +:+ c)) hi = Py.len a + Py.len b →
  Py.slice (a +:+ b +:+ c) (Some lo) (Some hi) = b.
Proof.
  intros Hlo Hhi. unfold Py.slice. rewrite Hlo, Hhi. unfold Py.len.
  rewrite (drop_app_length a) by lia.
  apply take_app_length. lia.
Qed.

Lemma slice_to (s1 s2 : string) (hi : Z) :
  Py.clamp (Py.len (s1 +:+ s2)) hi = Py.len s1 →
  Py.slice (s1 +:+ s2) None (Some hi) = s1.
Proof.
  intros Hhi. unfold Py.slice. rewrite Hhi. unfold Py.len.
  change (Z.to_nat 0) with 0%nat. simpl Py.drop.
  apply take_app_length. lia.
Qed.

Lemma slice_from (s1 s2 : string) (lo : Z) :
  Py.clamp (Py.len (s1 +:+ s2)) lo = Py.len s1 →
  Py.slice (s1 +:+ s2) (Some lo) None = s2.
Proof.
  intros Hlo. unfold Py.slice. rewrite Hlo. unfold Py.len.
  rewrite (drop_app_length s1) by lia. rewrite length_app.
  replace (Z.to_nat _) with (String.length s2) by lia.
  apply take_length.
Qed.

Section c_instr_parts.
Variables (dest jmp : option string) (comp : string).
Hypothesis Hdest : plain_clause dest.
Hypothesis Hcomp : plain comp.
Hypothesis Hjmp : plain_clause jmp.

(** The position of [=], as [line.index('=')] finds it; [ind_eq] and
    [ind_jmp] as [c_instr_encoder] computes them. *)
Local Abbreviation instr := (c_instr dest comp jmp).
Local Abbreviation ind_eq :=
  (match Py.find "=" instr with
   | Some i => Z.of_nat i
   | None => - Py.len instr - 1
   end).
Local Abbreviation ind_jmp :=
  (match Py.find ";" instr with
   | Some i => Z.of_nat i
   | None => Py.len instr
   end).

Lemma len_c_instr :
  Py.len instr =
  Py.len (dest_clause dest) + Py.len comp + Py.len (jump_clause jmp).
Proof. unfold c_instr, Py.len. rewrite !length_app. lia. Qed.

Lemma find_eq_c_instr :
  Py.find "=" instr =
  match dest with Some d => Some (String.length d) | None => None end.
Proof.
  unfold c_instr. destruct Hcomp as [Hc _].
  destruct dest as [d|]; simpl dest_clause.
  - destruct Hdest as [Hd _]. rewrite app_assoc, find_app, Hd.
    rewrite app_cons. simpl. f_equal. lia.
  - rewrite app_nil_l, find_app, Hc.
    destruct jmp as [j|]; simpl jump_clause; [|done].
    destruct Hjmp as [Hj _]. rewrite app_cons, app_nil_l. simpl.
    by rewrite Hj.
Qed.

Lemma find_semi_c_instr :
  Py.find ";" instr =
  match jmp with
  | Some _ =>
      Some (String.length (dest_clause dest) + String.length comp)%nat
  | None => None
  end.
Proof.
  unfold c_instr. destruct Hcomp as [_ Hc].
  assert (Py.find ";" (dest_clause dest) = None) as Ha.
  { destruct dest as [d|]; simpl dest_clause; [|done].
    destruct Hdest as [_ Hd]. by rewrite find_app, Hd. }
  rewrite !find_app, Ha, Hc.
  destruct jmp as [j|]; simpl jump_clause; [|done].
  rewrite app_cons. simpl. f_equal. lia.
Qed.

(** [ind_eq + 1] and [ind_jmp], once clamped, are the two ends of the
    computation. *)
Lemma clamp_ind_eq :
  Py.clamp (Py.len instr) (ind_eq + 1) = Py.len (dest_clause dest).
Proof.
  rewrite find_eq_c_instr. pose proof len_c_instr as Hlen.
  unfold Py.len in *. destruct dest as [d|]; simpl dest_clause in *.
  - rewrite length_app in *. simpl String.length in *.
    rewrite clamp_nonneg by lia. lia.
  - simpl String.length in *.
    destruct (Z.eq_dec (Z.of_nat (String.length (c_instr None comp jmp))) 0)
      as [H0|H0].
    + rewrite H0. reflexivity.
    + rewrite clamp_neg by lia. lia.
Qed.

Lemma clamp_ind_jmp :
  Py.clamp (Py.len instr) ind_jmp =
  Py.len (dest_clause dest) + Py.len comp.
Proof.
  rewrite find_semi_c_instr. pose proof len_c_instr as Hlen.
  unfold Py.len in *. destruct jmp as [j|]; simpl jump_clause in *.
  - rewrite clamp_nonneg by lia. lia.
  - simpl String.length in *. rewrite clamp_nonneg by lia. lia.
Qed.

Lemma slice_comp :
  Py.slice instr (Some (ind_eq + 1)) (Some ind_jmp) = comp.
Proof.
  pose proof clamp_ind_eq as Hlo. pose proof clamp_ind_jmp as Hhi.
  unfold c_instr in *. by apply slice_parts.
Qed.

Lemma slice_dest :
  (let dest' := Py.slice instr None (Some ind_eq) in
   if String.eqb dest' EmptyString then "null" else dest') = mnemonic dest.
Proof.
  rewrite find_eq_c_instr. cbv zeta. unfold c_instr.
  destruct dest as [d|]; simpl dest_clause; simpl mnemonic.
  - rewrite app_assoc, slice_to; [done|].
    unfold Py.len. rewrite length_app, clamp_nonneg by lia. lia.
  - rewrite slice_to; [done|].
    unfold Py.len. simpl String.length. rewrite clamp_neg by lia. lia.
Qed.

Lemma slice_jump :
  (let jmp' := Py.slice instr (Some (ind_jmp + 1)) None in
   if String.eqb jmp' EmptyString then "null" else jmp') = mnemonic jmp.
Proof.
  rewrite find_semi_c_instr. cbv zeta. unfold c_instr.
  destruct jmp as [j|]; simpl jump_clause; simpl mnemonic.
  - replace (dest_clause dest +:+ comp +:+ ";" +:+ j)
      with ((dest_clause dest +:+ comp +:+ ";") +:+ j)
      by by rewrite !app_assoc.
    rewrite slice_from; [done|].
    unfold Py.len. rewrite !length_app. simpl String.length.
    rewrite clamp_nonneg by lia. lia.
  - rewrite <- app_assoc, slice_from; [done|].
    unfold Py.len. rewrite app_nil_r, clamp_nonneg by lia. lia.
Qed.

(** The encoder recovers the three clauses and looks each one up. *)
Lemma c_instr_encoder_parts (ct dt jt : gmap string string) :
  c_instr_encoder instr ct dt jt =
  (c ← Py.dict_get ct comp;
   d ← Py.dict_get dt (mnemonic dest);
   j ← Py.dict_get jt (mnemonic jmp);
   OK ("111" +:+ c +:+ d +:+ j)).
Proof.
  unfold c_instr_encoder. cbv zeta.
  pose proof slice_dest as Hd. pose proof slice_jump as Hj.
  cbv zeta in Hd, Hj. by rewrite slice_comp, Hd, Hj.
Qed.
End c_instr_parts.

Lemma dict_get_Some {V} (d : gmap string V) (k : string) (v : V) :
  d !! k = Some v → Py.dict_get d k = OK v.
Proof. intros H. unfold Py.dict_get. by rewrite H. Qed.

(** C9: [-D] and [!D] have the same code [0001101], so that with any
    destination clause and any jump clause the two instructions get the
    same result from the encoder; when the destination and the jump are
    in their tables, that result is the 16 characters
    [111 0001101 ddd jjj]. *)
Theorem neg_D_encodes_as_not_D (dest jmp : option string) :
  plain_clause dest → plain_clause jmp →
  comp_tbl !! "-D" = Some "0001101" ∧
  comp_tbl !! "!D" = Some "0001101" ∧
  c_instr_encoder (c_instr dest "-D" jmp) comp_tbl dest_tbl jmp_tbl =
  c_instr_encoder (c_instr dest "!D" jmp) comp_tbl dest_tbl jmp_tbl ∧
  (∀ d j, dest_tbl !! mnemonic dest = Some d →
          jmp_tbl !! mnemonic jmp = Some j →
     c_instr_encoder (c_instr dest "-D" jmp) comp_tbl dest_tbl jmp_tbl
     = OK ("1110001101" +:+ d +:+ j)).
Proof.
  intros Hdest Hjmp.
  assert (comp_tbl !! "-D" = Some "0001101") as Hneg by reflexivity.
  assert (comp_tbl !! "!D" = Some "0001101") as Hnot by reflexivity.
  split; [done|]. split; [done|].
  rewrite !c_instr_encoder_parts by done.
  rewrite (dict_get_Some _ _ _ Hneg), (dict_get_Some _ _ _ Hnot).
  split; [done|].
  intros d j Hd Hj.
  by rewrite (dict_get_Some _ _ _ Hd), (dict_get_Some _ _ _ Hj).
Qed.

Lemma neg_D_encodes_as_not_D_witness :
  c_instr_encoder "AM=-D;JGT" comp_tbl dest_tbl jmp_tbl =
  c_instr_encoder "AM=!D;JGT" comp_tbl dest_tbl jmp_tbl ∧
  c_instr_encoder "AM=-D;JGT" comp_tbl dest_tbl jmp_tbl
  = OK "1110001101101001".
Proof.
  destruct (neg_D_encodes_as_not_D (Some "AM") (Some "JGT"))
    as (_ & _ & Hsame & Hcode).
  - split; reflexivity.
  - split; reflexivity.
  - split; [exact Hsame|]. apply (Hcode "101" "001"); reflexivity.
Defined.

(* ===================================================================== *)
(** ** Whole programs *)
(* ===================================================================== *)

(** C5: the six-instruction program without labels or variables is
    encoded line by line, in order, as listed. *)
Theorem main_add_program :
  main ["@2"; "D=A"; "@3"; "D=D+A"; "@0"; "M=D"] =
  OK ["0000000000000010"; "1110110000010000"; "0000000000000011";
      "1110000010010000"; "0000000000000000"; "1110001100001000"] ∧
  bin_encoder ["@2"; "D=A"; "@3"; "D=D+A"; "@0"; "M=D"] =
  OK ["0000000000000010"; "1110110000010000"; "0000000000000011";
      "1110000010010000"; "0000000000000000"; "1110001100001000"].
Proof. split; vm_compute; reflexivity. Qed.

(** Labels and constants are never given a variable address. *)
Lemma var_table_keys_new (S : list string) (L C V : gmap string Z)
    (s : string) :
  var_table S L C = OK V → is_Some (V !! s) →
  L !! s = None ∧ C !! s = None.
Proof.
  intros HV Hs.
  assert (Forall indexable S) as HS.
  { unfold var_table in HV.
    destruct (for_each (var_step L C) S (∅, 16)) as [st|e] eqn:Hloop;
      [|done].
    by eapply var_loop_indexable. }
  rewrite var_table_eq in HV by done. injection HV as <-.
  destruct (decide (s ∈ new_symbols L C S)) as [Hin|Hout].
  - apply elem_of_new_symbols in Hin. tauto.
  - rewrite alloc_lookup_other, lookup_empty in Hs by done.
    by destruct Hs.
Qed.

(** An address instruction whose operand is a constant, or a numeral,
    leaves the state of [var_table] as it is. *)
Lemma var_step_constant (L C : gmap string Z) (st : gmap string Z * Z)
    (c : ascii) (s : string) :
  Py.isdigit c = false → is_Some (C !! String c s) →
  var_step L C st (String "@" (String c s)) = OK st.
Proof.
  intros Hc HC. rewrite var_step_indexable by done.
  unfold var_next. simpl. rewrite Hc. simpl.
  apply dict_has_true in HC. rewrite HC.
  by rewrite andb_false_r.
Qed.

Lemma var_step_numeral (L C : gmap string Z) (st : gmap string Z * Z)
    (c : ascii) (s : string) :
  Py.isdigit c = true →
  var_step L C st (String "@" (String c s)) = OK st.
Proof.
  intros Hc. rewrite var_step_indexable by done.
  unfold var_next. simpl. by rewrite Hc.
Qed.

Lemma refer_line_numeral (tbl : gmap string Z) (c : ascii) (s : string) :
  Py.isdigit c = true →
  refer_line tbl (String "@" (String c s)) = OK (String "@" (String c s)).
Proof.
  intros Hc. rewrite refer_line_indexable by done. simpl. by rewrite Hc.
Qed.

(** In any program, [@SCREEN] can be written [@16384]: every stage of
    [main] treats the two lines alike. *)
Lemma main_screen_context (pre post : list string) :
  main (pre ++ "@SCREEN" :: post) = main (pre ++ "@16384" :: post).
Proof.
  unfold main. rewrite !parser_concat, !parser_cons.
  change (parser_step [] "@SCREEN") with ["@SCREEN"].
  change (parser_step [] "@16384") with ["@16384"].
  rewrite !label_table_eq. simpl mbind. unfold result_bind at 1 4, rbind.
  rewrite !label_scan_app, !retained_app. simpl app.
  rewrite !retained_cons_instr, !label_scan_cons_instr by reflexivity.
  set (A := retained (parser pre)). set (B := retained (parser post)).
  set (L := label_scan _ _ (parser post)).
  assert (const_table !! "SCREEN" = Some 16384) as HC
    by (vm_compute; reflexivity).
  assert (var_table (A ++ "@SCREEN" :: B) L const_table =
          var_table (A ++ "@16384" :: B) L const_table) as Hvar.
  { unfold var_table. rewrite !for_each_app.
    destruct (for_each (var_step L const_table) A (∅, 16)) as [st|e];
      [|done].
    simpl. rewrite (var_step_constant _ _ _ "S" "CREEN"); [|done|by eexists].
    rewrite (var_step_numeral _ _ _ "1" "6384"); done. }
  rewrite <- Hvar.
  destruct (var_table (A ++ "@SCREEN" :: B) L const_table) as [V|e] eqn:HV;
    [|done].
  simpl mbind. unfold result_bind at 1, rbind.
  assert (V !! "SCREEN" = None) as HVs.
  { destruct (V !! "SCREEN") as [v|] eqn:Hv; [|done].
    destruct (var_table_keys_new _ _ _ _ "SCREEN" HV) as [_ Hnone];
      [by eexists|congruence]. }
  assert (refer_to_num (A ++ "@SCREEN" :: B) L const_table V =
          refer_to_num (A ++ "@16384" :: B) L const_table V) as Href.
  { unfold refer_to_num. rewrite !for_append_app, !for_append_cons.
    pose proof (merged_lookup L const_table V "SCREEN") as Hlook.
    rewrite HVs, HC in Hlook.
    set (tbl := Py.dict_merge (Py.dict_merge L const_table) V) in *.
    rewrite (refer_line_symbol tbl "S" "CREEN" 16384) by done.
    by rewrite (refer_line_numeral tbl "1" "6384"). }
  by rewrite Href.
Qed.

(** C8: [@SCREEN] and [@16384] are encoded alike.  The constant table
    maps [SCREEN] to 16384, the resolver writes that value in place of
    the name, and the encoder then sees the same line; [main] returns
    the same single string for the two one-line programs, and the same
    result for any two programs that differ by that line only. *)
Theorem screen_encodes_as_16384 :
  const_table !! "SCREEN" = Some 16384 ∧
  refer_to_num ["@SCREEN"] ∅ const_table ∅ = OK ["@16384"] ∧
  main ["@SCREEN"] = OK ["0100000000000000"] ∧
  main ["@16384"] = OK ["0100000000000000"] ∧
  (∀ pre post : list string,
     main (pre ++ "@SCREEN" :: post) = main (pre ++ "@16384" :: post)).
Proof.
  split; [vm_compute; reflexivity|].
  split; [vm_compute; reflexivity|].
  split; [vm_compute; reflexivity|].
  split; [vm_compute; reflexivity|].
  apply main_screen_context.
Qed.

(* ===================================================================== *)
(** ** More on the line normalizer *)
(* ===================================================================== *)

Lemma remove_whitespace_no_space (s : string) :
  no_space (Py.remove_whitespace s) = true.
Proof.
  unfold no_space. induction s as [|c s IH]; simpl; [done|].
  destruct (Py.isspace c) eqn:Hc; simpl; [done|]. by rewrite Hc, IH.
Qed.

Lemma remove_whitespace_id (s : string) :
  no_space s = true → Py.remove_whitespace s = s.
Proof.
  unfold no_space. induction s as [|c s IH]; simpl; [done|].
  intros [Hc Hs]%andb_true_iff. apply negb_true_iff in Hc.
  by rewrite Hc, IH.
Qed.

Lemma no_space_take (n : nat) (s : string) :
  no_space s = true → no_space (Py.take n s) = true.
Proof.
  unfold no_space. revert n. induction s as [|c s IH]; intros [|n]; simpl;
    try done.
  intros [Hc Hs]%andb_true_iff. by rewrite Hc, IH.
Qed.

Lemma find_lt (c : ascii) (s : string) (i : nat) :
  Py.find c s = Some i → (i < String.length s)%nat.
Proof.
  revert i. induction s as [|d s IH]; intros i; simpl; [done|].
  destruct (Ascii.eqb d c); [intros [= <-]; lia|].
  destruct (Py.find c s) as [j|]; simpl; [|done].
  intros [= <-]. specialize (IH j eq_refl). lia.
Qed.

Lemma find_take (c : ascii) (s : string) (i : nat) :
  Py.find c s = Some i → Py.find c (Py.take i s) = None.
Proof.
  revert i. induction s as [|d s IH]; intros i; simpl; [done|].
  destruct (Ascii.eqb d c) eqn:Hd; [by intros [= <-]|].
  destruct (Py.find c s) as [j|]; simpl; [|done].
  intros [= <-]. simpl. by rewrite Hd, IH.
Qed.

(** [s[0:i]] for a position [i] inside [s]. *)
Lemma slice_prefix (s : string) (i : nat) :
  (i ≤ String.length s)%nat →
  Py.slice s (Some 0) (Some (Z.of_nat i)) = Py.take i s.
Proof.
  intros Hi. unfold Py.slice, Py.len. rewrite !clamp_nonneg by lia.
  rewrite Z.min_l, Z.min_l by lia. rewrite Z.sub_0_r, Nat2Z.id.
  done.
Qed.

Lemma parser_step_clean (raw line : string) :
  line ∈ parser_step [] raw → clean line.
Proof.
  unfold parser_step. destruct (String.eqb raw EmptyString).
  { by intros ?%elem_of_nil. }
  pose proof (remove_whitespace_no_space raw) as Hws.
  destruct (Py.find "/" (Py.remove_whitespace raw)) as [ind|] eqn:Hfind.
  - destruct ind as [|ind]; simpl negb; cbv iota.
    { by intros ?%elem_of_nil. }
    simpl app. intros ->%list_elem_of_singleton.
    pose proof (find_lt _ _ _ Hfind).
    rewrite slice_prefix by lia. split.
    + by apply no_space_take.
    + by apply find_take.
  - simpl app. by intros ->%list_elem_of_singleton.
Qed.

Lemma parser_clean (l : list string) : Forall clean (parser l).
Proof.
  induction l as [|raw l IH]; [constructor|].
  rewrite parser_cons. apply Forall_app. split; [|done].
  apply Forall_forall. intros line. apply parser_step_clean.
Qed.

(** X1: every line [parser] returns holds no whitespace and no [/], and is
    left as it is by a further removal of whitespace. *)
Theorem parser_output_clean (l : list string) :
  Forall (λ line, no_space line = true ∧ Py.find "/" line = None
                  ∧ Py.remove_whitespace line = line) (parser l).
Proof.
  eapply Forall_impl; [apply parser_clean|].
  intros line [Hws Hsl]. split; [done|]. split; [done|].
  by apply remove_whitespace_id.
Qed.

(** X2: a line that, once whitespace is removed, is some non-empty text
    without [/] followed by a [/] and anything, is emitted as that text;
    the lines around it are treated on their own. *)
Theorem parser_strips_comment (pre post : list string)
    (line code comment : string) :
  Py.remove_whitespace line = code +:+ String "/" comment →
  code ≠ EmptyString → Py.find "/" code = None →
  parser (pre ++ line :: post) = parser pre ++ code :: parser post.
Proof.
  intros Heq Hne Hfind. rewrite parser_concat, parser_cons. do 2 f_equal.
  unfold parser_step.
  assert (line ≠ EmptyString) as Hline.
  { intros ->. simpl in Heq. by destruct code. }
  apply String.eqb_neq in Hline. rewrite Hline, Heq.
  rewrite find_app, Hfind. simpl. rewrite Nat.add_0_r.
  assert ((String.length code =? 0)%nat = false) as ->
    by (by destruct code).
  simpl. rewrite slice_prefix by (rewrite length_app; lia).
  by rewrite take_app.
Qed.

Lemma parser_strips_comment_witness :
  parser (["@i"] ++ "  M = D  // store / keep" :: ["@j"])
  = parser ["@i"] ++ "M=D" :: parser ["@j"].
Proof.
  apply (parser_strips_comment ["@i"] ["@j"] "  M = D  // store / keep"
           "M=D" "/store/keep").
  - reflexivity.
  - discriminate.
  - reflexivity.
Defined.

Lemma parser_step_of_clean (s : string) :
  clean s →
  parser_step [] s = if String.eqb s EmptyString then [] else [s].
Proof.
  intros [Hws Hsl]. unfold parser_step.
  destruct (String.eqb s EmptyString); [done|].
  by rewrite remove_whitespace_id, Hsl.
Qed.

Lemma parser_of_clean (k : list string) :
  Forall clean k → parser k = filter (λ s, s ≠ EmptyString) k.
Proof.
  induction 1 as [|s k Hs _ IH]; [done|].
  rewrite parser_cons, IH, parser_step_of_clean by done.
  destruct (String.eqb_spec s EmptyString) as [->|Hne].
  - by rewrite filter_cons_False by tauto.
  - by rewrite filter_cons_True.
Qed.

(** X3: running [parser] on its own output only drops the empty strings it
    had emitted, and a third run changes nothing more. *)
Theorem parser_twice (l : list string) :
  parser (parser l) = filter (λ s, s ≠ EmptyString) (parser l) ∧
  parser (parser (parser l)) = parser (parser l).
Proof.
  pose proof (parser_of_clean _ (parser_clean l)) as H1.
  split; [done|].
  rewrite (parser_of_clean (parser (parser l)) (parser_clean _)).
  rewrite H1. rewrite list_filter_filter. apply list_filter_iff. tauto.
Qed.

(* ===================================================================== *)
(** ** More on the label table builder *)
(* ===================================================================== *)

Lemma label_scan_keys (t : gmap string Z) (n : Z) (l : list string)
    (name : string) :
  is_Some (label_scan t n l !! name) ↔
  is_Some (t !! name) ∨
  ∃ line, line ∈ l ∧ is_label line = true ∧ label_name line = name.
Proof.
  revert t n. induction l as [|x l IH]; intros t n; simpl.
  - split; [by left|]. intros [H|(line & Hin & _)]; [done|].
    by apply elem_of_nil in Hin.
  - destruct (is_label x) eqn:Hx; rewrite IH; clear IH.
    + rewrite lookup_insert_is_Some. split.
      * intros [[<-|[_ H]]|(line & Hin & Hl & Hn)].
        -- right. exists x. split; [left|done].
        -- by left.
        -- right. exists line. split; [by right|done].
      * intros [H|(line & Hin & Hl & Hn)].
        -- destruct (decide (label_name x = name)); [by left; left|].
           left. right. done.
        -- apply elem_of_cons in Hin as [->|Hin].
           ++ left. by left.
           ++ right. by exists line.
    + split.
      * intros [H|(line & Hin & Hl & Hn)]; [by left|].
        right. exists line. split; [by right|done].
      * intros [H|(line & Hin & Hl & Hn)]; [by left|].
        apply elem_of_cons in Hin as [->|Hin]; [congruence|].
        right. by exists line.
Qed.

Lemma label_scan_bounds (t : gmap string Z) (n lo : Z) (l : list string) :
  lo ≤ n →
  map_Forall (λ _ v, lo ≤ v ≤ n) t →
  map_Forall (λ _ v, lo ≤ v ≤ n + Z.of_nat (length (retained l)))
    (label_scan t n l).
Proof.
  revert t n. induction l as [|x l IH]; intros t n Hn Ht; simpl.
  - rewrite Z.add_0_r. done.
  - destruct (is_label x) eqn:Hx.
    + rewrite retained_cons_label by done. apply IH; [done|].
      apply map_Forall_insert_2; [lia | done].
    + rewrite retained_cons_instr by done. simpl length.
      replace (n + Z.of_nat (S (length (retained l))))
        with ((n + 1) + Z.of_nat (length (retained l))) by lia.
      apply IH; [lia|].
      eapply map_Forall_impl; [exact Ht|]. simpl. intros. lia.
Qed.

Lemma retained_all (l : list string) :
  Forall (λ line, is_label line = false) l → retained l = l.
Proof.
  intros H. unfold retained. apply filter_all.
  eapply Forall_impl; [exact H|]. intros x ->. done.
Qed.

Lemma label_scan_no_labels (t : gmap string Z) (n : Z) (l : list string) :
  Forall (λ line, is_label line = false) l → label_scan t n l = t.
Proof.
  intros H. revert n. induction H as [|x l Hx _ IH]; intros n; simpl; [done|].
  by rewrite Hx, IH.
Qed.

(** X4: [label_table] never raises (its [remove] always finds the line);
    it returns the input without the lines that hold a [(], the keys of
    its table are the names of those lines, and on an input without such a
    line it returns the empty table and the input. *)
Theorem label_table_total (instr_lst : list string) :
  ∃ tbl : gmap string Z,
    label_table instr_lst = OK (tbl, retained instr_lst) ∧
    (∀ name, is_Some (tbl !! name) ↔
       ∃ line, line ∈ instr_lst ∧ is_label line = true
               ∧ label_name line = name) ∧
    (Forall (λ line, is_label line = false) instr_lst →
       tbl = ∅ ∧ retained instr_lst = instr_lst).
Proof.
  exists (label_scan ∅ 0 instr_lst). split; [apply label_table_eq|]. split.
  - intros name. rewrite label_scan_keys, lookup_empty.
    split; [|by right]. intros [[? [=]]|H]; done.
  - intros H. split; [by apply label_scan_no_labels | by apply retained_all].
Qed.

(** X5: every value of the label table lies between 0 and the number of
    instructions returned, and no more instructions are returned than
    lines were given. *)
Theorem label_table_bounds (instr_lst : list string) :
  ∃ (tbl : gmap string Z) (out : list string),
    label_table instr_lst = OK (tbl, out) ∧
    (length out ≤ length instr_lst)%nat ∧
    ∀ name v, tbl !! name = Some v → 0 ≤ v ≤ Z.of_nat (length out).
Proof.
  exists (label_scan ∅ 0 instr_lst), (retained instr_lst).
  split; [apply label_table_eq|]. split; [apply length_filter|].
  intros name v Hv.
  pose proof (label_scan_bounds ∅ 0 0 instr_lst) as Hb.
  specialize (Hb ltac:(lia) (map_Forall_empty _)).
  apply (Hb name v Hv).
Qed.

(* ===================================================================== *)
(** ** More on the variable table builder *)
(* ===================================================================== *)

Lemma not_indexable_cases (line : string) :
  ¬ indexable line → line = EmptyString ∨ line = "@".
Proof.
  unfold indexable. intros H.
  destruct (decide (line = EmptyString)); [by left|].
  destruct (decide (line = "@")); [by right|]. tauto.
Qed.

Lemma var_step_not_indexable (L C : gmap string Z) (st : gmap string Z * Z)
    (line : string) :
  ¬ indexable line → var_step L C st line = Raise IndexError.
Proof.
  intros [->| ->]%not_indexable_cases; by destruct st.
Qed.

Lemma var_loop_raises (L C : gmap string Z) (S : list string)
    (st : gmap string Z * Z) :
  ¬ Forall indexable S → for_each (var_step L C) S st = Raise IndexError.
Proof.
  revert st. induction S as [|line S IH]; intros st Hnot.
  - destruct Hnot. constructor.
  - simpl. destruct (decide (indexable line)) as [Hline|Hline].
    + rewrite var_step_indexable by done. simpl. apply IH.
      intros HS. apply Hnot. by constructor.
    + by rewrite var_step_not_indexable.
Qed.

(** X6: [var_table] returns a table exactly when no line is empty or a
    bare [@]; otherwise it raises IndexError, and it raises nothing
    else. *)
Theorem var_table_raises_IndexError (S : list string)
    (L C : gmap string Z) :
  (Forall indexable S ↔ ∃ V, var_table S L C = OK V) ∧
  (¬ Forall indexable S ↔ var_table S L C = Raise IndexError).
Proof.
  split; split.
  - intros HS. eexists. by apply var_table_eq.
  - intros [V HV]. destruct (decide (Forall indexable S)) as [|Hnot]; [done|].
    unfold var_table in HV. by rewrite var_loop_raises in HV.
  - intros Hnot. unfold var_table. by rewrite var_loop_raises.
  - intros Hraise HS. by rewrite var_table_eq in Hraise.
Qed.

Lemma new_symbols_app (L C : gmap string Z) (S1 S2 : list string) :
  ∃ rest, new_symbols L C (S1 ++ S2) = new_symbols L C S1 ++ rest.
Proof.
  unfold new_symbols. rewrite symbols_app, filter_app, distinct_app.
  by eexists.
Qed.

(** X7: the lines that follow never change an address: the table built
    from a program is contained in the table built from the program with
    more lines appended. *)
Theorem var_table_prefix_stable (pre post : list string)
    (L C V1 : gmap string Z) :
  var_table pre L C = OK V1 → Forall indexable post →
  ∃ V2, var_table (pre ++ post) L C = OK V2 ∧ V1 ⊆ V2.
Proof.
  intros HV1 Hpost.
  assert (Forall indexable pre) as Hpre.
  { destruct (decide (Forall indexable pre)) as [|Hnot]; [done|].
    unfold var_table in HV1. by rewrite var_loop_raises in HV1. }
  rewrite var_table_eq in HV1 by done. injection HV1 as <-.
  exists (alloc ∅ 16 (new_symbols L C (pre ++ post))).
  split; [apply var_table_eq; by apply Forall_app|].
  apply map_subseteq_spec. intros s v Hv.
  destruct (new_symbols_app L C pre post) as [rest Hrest].
  pose proof (NoDup_distinct
    (filter (λ s, fresh L C ∅ s) (symbols pre))) as Hnd1.
  pose proof (NoDup_distinct
    (filter (λ s, fresh L C ∅ s) (symbols (pre ++ post)))) as Hnd2.
  fold (new_symbols L C pre) in Hnd1.
  fold (new_symbols L C (pre ++ post)) in Hnd2.
  destruct (decide (s ∈ new_symbols L C pre)) as [Hin|Hout].
  - apply list_elem_of_lookup in Hin as [k Hk].
    rewrite (alloc_lookup_nth _ _ _ k s Hnd1 Hk) in Hv.
    injection Hv as <-.
    apply alloc_lookup_nth; [done|].
    rewrite Hrest. by apply lookup_app_l_Some.
  - by rewrite alloc_lookup_other, lookup_empty in Hv.
Qed.

Lemma var_table_prefix_stable_witness :
  ∃ V2, var_table (["@i"; "M=1"] ++ ["@j"; "@i"; "@KBD"]) ∅ const_table
          = OK V2 ∧ ({["i" := 16]} : gmap string Z) ⊆ V2.
Proof.
  apply (var_table_prefix_stable ["@i"; "M=1"] ["@j"; "@i"; "@KBD"]
           ∅ const_table {["i" := 16]}).
  - vm_compute. reflexivity.
  - repeat constructor; done.
Defined.

(** X8: a line that is a compute instruction, a numeric address, or an
    address whose operand is a label or a constant (and that can be
    indexed) can be added or removed anywhere without changing the result
    of [var_table]. *)
Theorem var_table_skips_line (pre post : list string) (line : string)
    (L C : gmap string Z) :
  indexable line →
  (∀ s, symbol_of line = Some s → is_Some (L !! s) ∨ is_Some (C !! s)) →
  var_table (pre ++ line :: post) L C = var_table (pre ++ post) L C.
Proof.
  intros Hline Hknown. unfold var_table. rewrite !for_each_app.
  destruct (for_each (var_step L C) pre (∅, 16)) as [st|e]; [|done].
  simpl. rewrite var_step_indexable by done. simpl.
  replace (var_next L C st line) with st; [done|].
  unfold var_next. destruct (symbol_of line) as [s|]; [|done].
  destruct (Hknown s eq_refl) as [H|H]; apply dict_has_true in H;
    rewrite H; simpl; by rewrite ?andb_false_r.
Qed.

Lemma var_table_skips_line_witness :
  var_table (["@i"] ++ "@LOOP" :: ["@j"]) {["LOOP" := 4]} const_table
  = var_table (["@i"] ++ ["@j"]) {["LOOP" := 4]} const_table.
Proof.
  apply (var_table_skips_line ["@i"] ["@j"] "@LOOP" {["LOOP" := 4]}
           const_table).
  - done.
  - intros s [= <-]. left. by eexists.
Defined.

(* ===================================================================== *)
(** ** More on the symbol resolver *)
(* ===================================================================== *)

Lemma symbol_of_indexable (line s : string) :
  symbol_of line = Some s → indexable line.
Proof. destruct line as [|c0 [|c1 t]]; done. Qed.

Lemma refer_line_not_indexable (tbl : gmap string Z) (line : string) :
  ¬ indexable line → refer_line tbl line = Raise IndexError.
Proof. by intros [->| ->]%not_indexable_cases. Qed.

(** What one iteration of [refer_to_num] returns. *)
Lemma refer_line_OK (tbl : gmap string Z) (line out : string) :
  refer_line tbl line = OK out →
  indexable line ∧
  ((symbol_of line = None ∧ out = line) ∨
   (∃ s v, symbol_of line = Some s ∧ tbl !! s = Some v
           ∧ out = "@" +:+ Py.str v)).
Proof.
  intros Hout. destruct (decide (indexable line)) as [Hline|Hline].
  2:{ by rewrite refer_line_not_indexable in Hout. }
  split; [done|]. rewrite refer_line_indexable in Hout by done.
  destruct (symbol_of line) as [s|]; [|left; by injection Hout].
  right. unfold Py.dict_get in Hout.
  destruct (tbl !! s) as [v|] eqn:Hv; [|done].
  exists s, v. by injection Hout.
Qed.

Lemma for_append_Forall2 {A B} (body : A → result B) (l : list A)
    (ys : list B) :
  for_append body l = OK ys → Forall2 (λ x y, body x = OK y) l ys.
Proof.
  revert ys. induction l as [|x l IH]; intros ys; simpl.
  - intros [= <-]. constructor.
  - destruct (body x) as [y|e] eqn:Hy; simpl; [|done].
    destruct (for_append body l) as [ys'|e]; simpl; [|done].
    intros [= <-]. constructor; [done | by apply IH].
Qed.

Lemma for_append_raise {A B} (body : A → result B) (pre post : list A)
    (pre' : list B) (x : A) (e : exn) :
  for_append body pre = OK pre' → body x = Raise e →
  for_append body (pre ++ x :: post) = Raise e.
Proof.
  intros Hpre Hx. rewrite for_append_app, Hpre, for_append_cons, Hx. done.
Qed.

(** X9: when the lines before it are resolved, a symbolic operand that is
    a key of none of the three tables makes [refer_to_num] raise KeyError
    on that symbol, whatever follows. *)
Theorem refer_to_num_KeyError (pre post pre' : list string)
    (line s : string) (L C V : gmap string Z) :
  refer_to_num pre L C V = OK pre' →
  symbol_of line = Some s →
  L !! s = None → C !! s = None → V !! s = None →
  refer_to_num (pre ++ line :: post) L C V = Raise (KeyError s).
Proof.
  intros Hpre Hsym HL HC HV. unfold refer_to_num in *.
  eapply for_append_raise; [done|].
  rewrite refer_line_indexable by by eapply symbol_of_indexable.
  rewrite Hsym. unfold Py.dict_get. by rewrite merged_lookup, HV, HC, HL.
Qed.

Lemma refer_to_num_KeyError_witness :
  refer_to_num (["@R1"] ++ "@sum" :: ["D=M"]) {["LOOP" := 4]} const_table ∅
  = Raise (KeyError "sum").
Proof.
  apply (refer_to_num_KeyError ["@R1"] ["D=M"] ["@1"] "@sum" "sum"
           {["LOOP" := 4]} const_table ∅); reflexivity.
Defined.

(** X10: the list [refer_to_num] returns has the length of the input, and
    every line that is not an address instruction with a symbolic operand
    is found unchanged at the same position. *)
Theorem refer_to_num_pass_through (S S' : list string)
    (L C V : gmap string Z) :
  refer_to_num S L C V = OK S' →
  length S' = length S ∧
  ∀ (i : nat) (line : string),
    S !! i = Some line → symbol_of line = None → S' !! i = Some line.
Proof.
  intros HS. unfold refer_to_num in HS.
  split; [by eapply for_append_length|].
  apply for_append_Forall2 in HS. intros i line Hi Hsym.
  destruct (Forall2_lookup_l _ _ _ _ _ HS Hi) as (out & Hout & Hline).
  apply refer_line_OK in Hline as [_ [[_ ->]|(s & v & Hs & _)]];
    [done | congruence].
Qed.

Lemma refer_to_num_pass_through_witness :
  ∃ S', refer_to_num ["@i"; "M=1"; "@12"] ∅ ∅ {["i" := 16]} = OK S' ∧
        S' !! 1%nat = Some "M=1" ∧ S' !! 2%nat = Some "@12".
Proof.
  assert (refer_to_num ["@i"; "M=1"; "@12"] ∅ ∅ {["i" := 16]}
          = OK ["@16"; "M=1"; "@12"]) as HS by reflexivity.
  exists ["@16"; "M=1"; "@12"]. split; [exact HS|].
  destruct (refer_to_num_pass_through _ _ _ _ _ HS) as [_ H].
  split; apply H; reflexivity.
Defined.

Lemma is_digit_isdigit (c : ascii) : is_digit c = true → Py.isdigit c = true.
Proof.
  unfold is_digit, Py.digit_value, Py.isdigit.
  destruct (_ && _); [done|discriminate].
Qed.

(** The numeral written for a natural number starts with a digit. *)
Lemma symbol_of_numeral (v : Z) :
  0 ≤ v → symbol_of ("@" +:+ Py.str v) = None
          ∧ indexable ("@" +:+ Py.str v).
Proof.
  intros Hv. unfold Py.str. destruct (Z.ltb_spec v 0) as [|_]; [lia|].
  destruct (digits_read_back v Hv) as (c & t & -> & Hdig & _).
  simpl in Hdig. apply andb_true_iff in Hdig as [Hc _].
  rewrite app_cons, app_nil_l. simpl.
  by rewrite (is_digit_isdigit c Hc).
Qed.

Lemma refer_no_symbols (tbl : gmap string Z) (S : list string) :
  Forall (λ line, symbol_of line = None ∧ indexable line) S →
  for_append (refer_line tbl) S = OK S.
Proof.
  induction 1 as [|line S [Hsym Hidx] _ IH]; [done|].
  by rewrite for_append_cons, refer_line_indexable, Hsym, IH.
Qed.

Lemma refer_output_numeric (S S' : list string) (tbl : gmap string Z) :
  map_Forall (λ _ v, 0 ≤ v) tbl →
  for_append (refer_line tbl) S = OK S' →
  Forall (λ line, symbol_of line = None ∧ indexable line) S'.
Proof.
  intros Htbl HS. apply for_append_Forall2 in HS.
  induction HS as [|x y l k Hxy _ IH]; constructor; [|done].
  apply refer_line_OK in Hxy as [Hx [[Hs ->]|(s & v & _ & Hv & ->)]];
    [done|].
  apply symbol_of_numeral. by eapply Htbl.
Qed.

Lemma merged_Forall (P : Z → Prop) (L C V : gmap string Z) :
  map_Forall (λ _ v, P v) L → map_Forall (λ _ v, P v) C →
  map_Forall (λ _ v, P v) V →
  map_Forall (λ _ v, P v) (Py.dict_merge (Py.dict_merge L C) V).
Proof.
  intros HL HC HV s v. rewrite merged_lookup.
  destruct (V !! s) as [v1|] eqn:H1; [intros [= <-]; by eapply HV|].
  destruct (C !! s) as [v2|] eqn:H2; [intros [= <-]; by eapply HC|].
  intros H3. by eapply HL.
Qed.

(** X11: when no table holds a negative value, no line of the output has a
    symbolic operand left, and resolving the output again returns it
    unchanged. *)
Theorem refer_to_num_numeric (S S' : list string) (L C V : gmap string Z) :
  map_Forall (λ _ v, 0 ≤ v) L → map_Forall (λ _ v, 0 ≤ v) C →
  map_Forall (λ _ v, 0 ≤ v) V →
  refer_to_num S L C V = OK S' →
  Forall (λ line, symbol_of line = None) S' ∧
  refer_to_num S' L C V = OK S'.
Proof.
  intros HL HC HV HS. unfold refer_to_num in *.
  pose proof (refer_output_numeric _ _ _
                (merged_Forall (λ v, 0 ≤ v) L C V HL HC HV) HS) as Hnum.
  split; [eapply Forall_impl; [exact Hnum|]; by intros ? [? _]|].
  by apply refer_no_symbols.
Qed.

Lemma refer_to_num_numeric_witness :
  Forall (λ line, symbol_of line = None) ["@16"; "M=1"; "@4"; "@24576"] ∧
  refer_to_num ["@16"; "M=1"; "@4"; "@24576"]
    {["LOOP" := 4]} const_table {["i" := 16]}
  = OK ["@16"; "M=1"; "@4"; "@24576"].
Proof.
  apply (refer_to_num_numeric ["@i"; "M=1"; "@LOOP"; "@KBD"]
           ["@16"; "M=1"; "@4"; "@24576"]
           {["LOOP" := 4]} const_table {["i" := 16]}).
  - apply map_Forall_singleton. lia.
  - apply map_Forall_to_list. vm_compute.
    repeat constructor; discriminate.
  - apply map_Forall_singleton. lia.
  - vm_compute. reflexivity.
Defined.

(** X12: with the variable table that [var_table] built for the same label
    and constant tables, a name resolves to the constant of that name,
    else to the label of that name, else to the variable of that name. *)
Theorem pipeline_resolution (S : list string) (L C V : gmap string Z)
    (c : ascii) (t : string) (v : Z) :
  var_table S L C = OK V → Py.isdigit c = false →
  (C !! String c t = Some v ∨
   (C !! String c t = None ∧ L !! String c t = Some v) ∨
   V !! String c t = Some v) →
  refer_to_num [String "@" (String c t)] L C V = OK ["@" +:+ Py.str v].
Proof.
  intros HV Hc Hv. unfold refer_to_num. rewrite for_append_cons.
  rewrite (refer_line_symbol _ c t v); [done|done|].
  rewrite merged_lookup.
  pose proof (var_table_keys_new S L C V (String c t) HV) as Hnew.
  destruct Hv as [HC|[[HC HL]|HVs]].
  - destruct (V !! String c t) as [w|]; [|by rewrite HC].
    destruct Hnew as [_ Hnone]; [by eexists|congruence].
  - destruct (V !! String c t) as [w|]; [|by rewrite HC].
    destruct Hnew as [Hnone _]; [by eexists|congruence].
  - by rewrite HVs.
Qed.

Lemma pipeline_resolution_witness :
  refer_to_num ["@LOOP"] {["LOOP" := 4]} const_table {["i" := 16]}
  = OK ["@4"].
Proof.
  apply (pipeline_resolution ["@i"; "@LOOP"] {["LOOP" := 4]} const_table
           {["i" := 16]} "L" "OOP" 4).
  - vm_compute. reflexivity.
  - reflexivity.
  - right. left. split; reflexivity.
Defined.

(* ===================================================================== *)
(** ** More on the address-instruction encoder *)
(* ===================================================================== *)

Lemma rstrip_head (c : ascii) (t : string) :
  Py.isspace c = false → ∃ r, Py.rstrip (String c t) = String c r.
Proof.
  intros Hc. simpl. rewrite Hc. destruct (Py.rstrip t); by eexists.
Qed.

(** [int] rejects an operand whose first character is neither white
    space, nor a digit, nor a sign. *)
Lemma a_instr_encoder_symbol (c : ascii) (t : string) :
  Py.isspace c = false → Py.digit_value c = None →
  c ≠ "-"%char → c ≠ "+"%char →
  a_instr_encoder (String "@" (String c t)) = Raise ValueError.
Proof.
  intros Hsp Hdig Hminus Hplus. unfold a_instr_encoder.
  rewrite slice_tail. unfold Py.int. simpl Py.lstrip. rewrite Hsp.
  destruct (rstrip_head c t Hsp) as [r ->].
  apply Ascii.eqb_neq in Hminus, Hplus. rewrite Hminus, Hplus.
  cbn [Py.int_digits]. by rewrite Hdig, andb_false_r.
Qed.

(** X13: an operand that starts with a character that is neither
    whitespace, nor a decimal digit, nor a sign, such as a symbol left
    unresolved, makes [a_instr_encoder] raise ValueError; so does the bare
    [@]. *)
Theorem a_instr_encoder_ValueError (c : ascii) (t : string) :
  Py.isspace c = false → Py.digit_value c = None →
  c ≠ "-"%char → c ≠ "+"%char →
  a_instr_encoder (String "@" (String c t)) = Raise ValueError ∧
  a_instr_encoder "@" = Raise ValueError.
Proof.
  intros Hsp Hdig Hminus Hplus.
  split; [by apply a_instr_encoder_symbol | reflexivity].
Qed.

Lemma a_instr_encoder_ValueError_witness :
  a_instr_encoder "@LOOP" = Raise ValueError.
Proof.
  apply (a_instr_encoder_ValueError "L" "OOP"); try reflexivity;
    discriminate.
Defined.





Lemma string_forall_app (P : ascii → bool) (s1 s2 : string) :
  string_forall P (s1 +:+ s2) = string_forall P s1 && string_forall P s2.
Proof.
  induction s1 as [|c s1 IH]; [done|].
  rewrite app_cons. simpl. by rewrite IH, andb_assoc.
Qed.


Lemma bits_binary (k : nat) (n : Z) : binary (bits k n) = true.
Proof.
  unfold binary. induction k as [|k IH]; simpl; [done|].
  rewrite IH. by destruct (Z.testbit n (Z.of_nat k)).
Qed.

Lemma bits_value_from_bits (k : nat) (n acc : Z) :
  bits_value_from acc (bits k n) = acc * 2 ^ Z.of_nat k + n mod 2 ^ Z.of_nat k.
Proof.
  revert acc. induction k as [|k IH]; intros acc.
  - simpl. rewrite Z.mod_1_r. lia.
  - change (bits (S k) n) with
      (String (if Z.testbit n (Z.of_nat k) then "1" else "0")%char
              (bits k n)).
    cbn [bits_value_from]. rewrite IH.
    rewrite Nat2Z.inj_succ, Z.pow_succ_r by lia.
    rewrite (Z.mul_comm 2 (2 ^ Z.of_nat k)).
    rewrite Z.rem_mul_r by lia.
    rewrite <- Z.testbit_spec' by lia.
    destruct (Z.testbit n (Z.of_nat k)); simpl Z.b2z;
      [change (Ascii.eqb "1" "1") with true
      |change (Ascii.eqb "0" "1") with false]; cbv iota; lia.
Qed.

Lemma bits_value_bits (k : nat) (n : Z) :
  0 ≤ n < 2 ^ Z.of_nat k → bits_value (bits k n) = n.
Proof.
  intros Hn. unfold bits_value. rewrite bits_value_from_bits.
  rewrite Z.mod_small by done. lia.
Qed.

Lemma OK_inj {A} (a b : A) : OK a = OK b → a = b.
Proof. by intros [=]. Qed.

(** X16: for [0 <= N < 65536] the 16 characters returned are bits, and
    read as a binary numeral they give [N] back; so two different operands
    in that range never get the same word. *)
Theorem a_instr_encoder_round_trip (N M : Z) :
  0 ≤ N < 65536 → 0 ≤ M < 65536 →
  (∃ s, a_instr_encoder ("@" +:+ Py.str N) = OK s ∧
        String.length s = 16%nat ∧ binary s = true ∧ bits_value s = N) ∧
  (a_instr_encoder ("@" +:+ Py.str N) = a_instr_encoder ("@" +:+ Py.str M)
   → N = M).
Proof.
  intros HN HM. split.
  - exists (bits 16 N). split; [by apply a_instr_encoder_bits|].
    split; [apply bits_length|]. split; [apply bits_binary|].
    by apply bits_value_bits.
  - rewrite !a_instr_encoder_bits by done. intros Heq%OK_inj.
    rewrite <- (bits_value_bits 16 N), <- (bits_value_bits 16 M) by done.
    by rewrite Heq.
Qed.

Lemma a_instr_encoder_round_trip_witness :
  ∃ s, a_instr_encoder "@24576" = OK s ∧ bits_value s = 24576.
Proof.
  destruct (a_instr_encoder_round_trip 24576 0) as [(s & Hs & _ & _ & Hv) _];
    [lia..|].
  exists s. split; [exact Hs | exact Hv].
Defined.

Lemma bits16_low (v : Z) :
  0 ≤ v < 32768 → bits 16 v = String "0" (bits 15 v).
Proof.
  intros Hv.
  change (bits 16 v) with
    (String (if Z.testbit v 15 then "1" else "0")%char (bits 15 v)).
  destruct (Z.eq_dec v 0) as [->|Hne]; [done|].
  rewrite Z.bits_above_log2; [done|lia|].
  apply Z.log2_lt_pow2; lia.
Qed.

Lemma bin_line_address (s : string) :
  bin_line (String "@" s) = a_instr_encoder (String "@" s).
Proof. reflexivity. Qed.

(** X17: a symbol that the merged table maps to [v], with [0 <= v <
    32768], is resolved and then encoded as ['0'] followed by the 15 bits
    of [v], the same word as for the instruction written with the numeral
    of [v]. *)
Theorem resolve_then_encode (L C V : gmap string Z) (c : ascii)
    (t : string) (v : Z) :
  Py.isdigit c = false →
  Py.dict_merge (Py.dict_merge L C) V !! String c t = Some v →
  0 ≤ v < 32768 →
  (refer_to_num [String "@" (String c t)] L C V ≫= bin_encoder)
  = OK [String "0" (bits 15 v)] ∧
  (refer_to_num ["@" +:+ Py.str v] L C V ≫= bin_encoder)
  = OK [String "0" (bits 15 v)].
Proof.
  intros Hc Hv Hrange.
  assert (bin_encoder ["@" +:+ Py.str v] = OK [String "0" (bits 15 v)])
    as Henc.
  { unfold bin_encoder. rewrite for_append_cons.
    rewrite app_cons, app_nil_l, bin_line_address.
    rewrite <- (app_nil_l (Py.str v)), <- app_cons.
    rewrite a_instr_encoder_bits by lia. by rewrite bits16_low. }
  split.
  - unfold refer_to_num. rewrite for_append_cons.
    rewrite (refer_line_symbol _ c t v) by done. exact Henc.
  - unfold refer_to_num. rewrite for_append_cons.
    destruct (symbol_of_numeral v) as [Hsym Hidx]; [lia|].
    rewrite refer_line_indexable, Hsym by done. exact Henc.
Qed.

Lemma resolve_then_encode_witness :
  (refer_to_num ["@KBD"] ∅ const_table ∅ ≫= bin_encoder)
  = OK ["0110000000000000"] ∧
  (refer_to_num ["@24576"] ∅ const_table ∅ ≫= bin_encoder)
  = OK ["0110000000000000"].
Proof.
  apply (resolve_then_encode ∅ const_table ∅ "K" "BD" 24576).
  - reflexivity.
  - vm_compute. reflexivity.
  - lia.
Defined.

(* ===================================================================== *)
(** ** The constant table *)
(* ===================================================================== *)


(* ===================================================================== *)
(** ** More on the compute-instruction encoder *)
(* ===================================================================== *)

Lemma dict_get_OK {V} (d : gmap string V) (k : string) (v : V) :
  Py.dict_get d k = OK v → d !! k = Some v.
Proof. unfold Py.dict_get. destruct (d !! k); [by intros [= ->] | done]. Qed.

Lemma code_table_shape (tbl : gmap string string) (n : nat) :
  forallb (λ kv, (String.length kv.2 =? n)%nat && binary kv.2)
    (map_to_list tbl) = true →
  ∀ k v, tbl !! k = Some v → String.length v = n ∧ binary v = true.
Proof.
  intros Hall k v Hv. rewrite forallb_forall in Hall.
  apply elem_of_map_to_list, list_elem_of_In in Hv.
  specialize (Hall _ Hv). simpl in Hall.
  apply andb_true_iff in Hall as [Hn Hb]. by apply Nat.eqb_eq in Hn.
Qed.

(** A successful compute instruction is [111] and thirteen more bits. *)
Lemma c_instr_encoder_word (line s : string) :
  c_instr_encoder line comp_tbl dest_tbl jmp_tbl = OK s →
  String.length s = 16%nat ∧ binary s = true ∧ Py.take 3 s = "111".
Proof.
  unfold c_instr_encoder. cbv zeta.
  destruct (Py.dict_get comp_tbl _) as [c|e] eqn:Hc; simpl; [|done].
  destruct (Py.dict_get dest_tbl _) as [d|e] eqn:Hd; simpl; [|done].
  destruct (Py.dict_get jmp_tbl _) as [j|e] eqn:Hj; simpl; [|done].
  intros <-%OK_inj.
  apply dict_get_OK, (code_table_shape comp_tbl 7) in Hc as [Hc1 Hc2];
    [|vm_compute; reflexivity].
  apply dict_get_OK, (code_table_shape dest_tbl 3) in Hd as [Hd1 Hd2];
    [|vm_compute; reflexivity].
  apply dict_get_OK, (code_table_shape jmp_tbl 3) in Hj as [Hj1 Hj2];
    [|vm_compute; reflexivity].
  split; [|split].
  - rewrite !length_app, Hc1, Hd1, Hj1. done.
  - unfold binary in *. rewrite !string_forall_app, Hc2, Hd2, Hj2. done.
  - by rewrite !app_cons.
Qed.

(** X19: whatever the line, a result of [c_instr_encoder] with the three
    code tables is 16 characters, all bits, starting with [111]. *)
Theorem c_instr_encoder_16_bits (line s : string) :
  c_instr_encoder line comp_tbl dest_tbl jmp_tbl = OK s →
  String.length s = 16%nat ∧ binary s = true ∧ Py.take 3 s = "111".
Proof. apply c_instr_encoder_word. Qed.

Lemma c_instr_encoder_16_bits_witness :
  String.length "1110101010000111" = 16%nat ∧
  binary "1110101010000111" = true ∧
  Py.take 3 "1110101010000111" = "111".
Proof.
  apply (c_instr_encoder_16_bits "0;JMP" "1110101010000111").
  vm_compute. reflexivity.
Defined.

(** X20: on [dest=comp;jump], each clause without [=] and [;] and the
    destination and jump optional, the encoder looks up the computation,
    then the destination, then the jump: the first key that is missing is
    the one of the KeyError, and with all three found the result is [111]
    and the three codes. *)
Theorem c_instr_encoder_lookups (dest jmp : option string) (comp : string)
    (ct dt jt : gmap string string) :
  plain_clause dest → plain comp → plain_clause jmp →
  c_instr_encoder (c_instr dest comp jmp) ct dt jt =
  match ct !! comp with
  | None => Raise (KeyError comp)
  | Some c =>
      match dt !! mnemonic dest with
      | None => Raise (KeyError (mnemonic dest))
      | Some d =>
          match jt !! mnemonic jmp with
          | None => Raise (KeyError (mnemonic jmp))
          | Some j => OK ("111" +:+ c +:+ d +:+ j)
          end
      end
  end.
Proof.
  intros Hdest Hcomp Hjmp. rewrite c_instr_encoder_parts by done.
  unfold Py.dict_get.
  destruct (ct !! comp); [|done]. simpl.
  destruct (dt !! mnemonic dest); [|done]. simpl.
  by destruct (jt !! mnemonic jmp).
Qed.

Lemma c_instr_encoder_lookups_witness :
  c_instr_encoder "MD=D+1;JXX" comp_tbl dest_tbl jmp_tbl
  = Raise (KeyError "JXX").
Proof.
  apply (c_instr_encoder_lookups (Some "MD") (Some "JXX") "D+1"
           comp_tbl dest_tbl jmp_tbl).
  - split; reflexivity.
  - split; reflexivity.
  - split; reflexivity.
Defined.

(** X21: an empty destination before [=], an empty jump after [;], and the
    word [null] written in either place are encoded like the instruction
    without those clauses. *)
Theorem c_instr_encoder_empty_clauses (comp : string)
    (ct dt jt : gmap string string) :
  plain comp →
  c_instr_encoder ("=" +:+ comp +:+ ";") ct dt jt
  = c_instr_encoder comp ct dt jt ∧
  c_instr_encoder ("null=" +:+ comp +:+ ";null") ct dt jt
  = c_instr_encoder comp ct dt jt.
Proof.
  intros Hcomp.
  pose proof (c_instr_encoder_parts None None comp I Hcomp I ct dt jt)
    as Hnone.
  pose proof (c_instr_encoder_parts (Some EmptyString) (Some EmptyString)
                comp (conj eq_refl eq_refl) Hcomp (conj eq_refl eq_refl)
                ct dt jt) as Hempty.
  pose proof (c_instr_encoder_parts (Some "null") (Some "null")
                comp (conj eq_refl eq_refl) Hcomp (conj eq_refl eq_refl)
                ct dt jt) as Hnull.
  unfold c_instr in *. simpl dest_clause in *. simpl jump_clause in *.
  rewrite app_nil_l, app_nil_r in Hnone.
  change (EmptyString +:+ "=") with "=" in Hempty.
  change (";" +:+ EmptyString) with ";" in Hempty.
  change ("null" +:+ "=") with "null=" in Hnull.
  change (";" +:+ "null") with ";null" in Hnull.
  split; [by rewrite Hempty, Hnone | by rewrite Hnull, Hnone].
Qed.

Lemma c_instr_encoder_empty_clauses_witness :
  c_instr_encoder "=D+1;" comp_tbl dest_tbl jmp_tbl
  = c_instr_encoder "D+1" comp_tbl dest_tbl jmp_tbl ∧
  c_instr_encoder "null=D+1;null" comp_tbl dest_tbl jmp_tbl
  = c_instr_encoder "D+1" comp_tbl dest_tbl jmp_tbl.
Proof.
  apply (c_instr_encoder_empty_clauses "D+1" comp_tbl dest_tbl jmp_tbl).
  split; reflexivity.
Defined.

Lemma codes_distinct_sound (allowed : string → string → bool)
    (tbl : gmap string string) :
  codes_distinct allowed (map_to_list tbl) = true →
  ∀ k1 k2 v, tbl !! k1 = Some v → tbl !! k2 = Some v →
             k1 = k2 ∨ allowed k1 k2 = true.
Proof.
  unfold codes_distinct. intros Hall k1 k2 v H1 H2.
  rewrite forallb_forall in Hall.
  apply elem_of_map_to_list, list_elem_of_In in H1, H2.
  specialize (Hall _ H1). rewrite forallb_forall in Hall.
  specialize (Hall _ H2). simpl in Hall.
  rewrite String.eqb_refl in Hall. simpl in Hall.
  apply orb_true_iff in Hall as [Heq|Hal]; [|by right].
  left. by apply String.eqb_eq.
Qed.

(** X22: in the destination table and in the jump table no two mnemonics
    have the same code; in the computation table the only two expressions
    with the same code are [-D] and [!D]. *)
Theorem code_tables_distinct :
  (∀ k1 k2 v, dest_tbl !! k1 = Some v → dest_tbl !! k2 = Some v → k1 = k2) ∧
  (∀ k1 k2 v, jmp_tbl !! k1 = Some v → jmp_tbl !! k2 = Some v → k1 = k2) ∧
  (∀ k1 k2 v, comp_tbl !! k1 = Some v → comp_tbl !! k2 = Some v →
     k1 = k2 ∨ (k1 = "-D" ∧ k2 = "!D") ∨ (k1 = "!D" ∧ k2 = "-D")).
Proof.
  split; [|split].
  - intros k1 k2 v H1 H2.
    destruct (codes_distinct_sound (λ _ _, false) dest_tbl
                ltac:(vm_compute; reflexivity) k1 k2 v H1 H2); done.
  - intros k1 k2 v H1 H2.
    destruct (codes_distinct_sound (λ _ _, false) jmp_tbl
                ltac:(vm_compute; reflexivity) k1 k2 v H1 H2); done.
  - intros k1 k2 v H1 H2.
    destruct (codes_distinct_sound
                (λ a b, (String.eqb a "-D" && String.eqb b "!D")
                        || (String.eqb a "!D" && String.eqb b "-D"))
                comp_tbl ltac:(vm_compute; reflexivity) k1 k2 v H1 H2)
      as [?|Hal]; [by left|right].
    apply orb_true_iff in Hal as [H|H]; apply andb_true_iff in H as [Ha Hb];
      apply String.eqb_eq in Ha, Hb; auto.
Qed.

(* ===================================================================== *)
(** ** The encoder loop *)
(* ===================================================================== *)

Lemma bin_line_OK (line word : string) :
  bin_line line = OK word →
  ∃ c t, line = String c t ∧
         (if Ascii.eqb c "@" then a_instr_encoder line
          else c_instr_encoder line comp_tbl dest_tbl jmp_tbl) = OK word.
Proof.
  destruct line as [|c t]; [done|]. intros H. by exists c, t.
Qed.

(** X23: [bin_encoder] returns one word per line, in order: the word at a
    position is the result of [a_instr_encoder] on the line at that
    position when the line starts with [@], and of [c_instr_encoder]
    otherwise; no line is empty. *)
Theorem bin_encoder_line_by_line (instr_lst out : list string) :
  bin_encoder instr_lst = OK out →
  length out = length instr_lst ∧
  ∀ (i : nat) (line : string), instr_lst !! i = Some line →
    ∃ c t word,
      line = String c t ∧ out !! i = Some word ∧
      (if Ascii.eqb c "@" then a_instr_encoder line
       else c_instr_encoder line comp_tbl dest_tbl jmp_tbl) = OK word.
Proof.
  intros Hout. unfold bin_encoder in Hout.
  split; [by eapply for_append_length|].
  apply for_append_Forall2 in Hout. intros i line Hi.
  destruct (Forall2_lookup_l _ _ _ _ _ Hout Hi) as (word & Hword & Hline).
  apply bin_line_OK in Hline as (c & t & -> & Henc).
  by exists c, t, word.
Qed.

Lemma bin_encoder_line_by_line_witness :
  ∃ c t word,
    "0;JMP" = String c t ∧
    ["0000000000000111"; "1110101010000111"] !! 1%nat = Some word ∧
    (if Ascii.eqb c "@" then a_instr_encoder "0;JMP"
     else c_instr_encoder "0;JMP" comp_tbl dest_tbl jmp_tbl) = OK word.
Proof.
  assert (bin_encoder ["@7"; "0;JMP"] =
          OK ["0000000000000111"; "1110101010000111"]) as H
    by (vm_compute; reflexivity).
  destruct (bin_encoder_line_by_line _ _ H) as [_ Hline].
  apply (Hline 1%nat "0;JMP"). reflexivity.
Defined.

(** X24: after lines that are encoded, an empty line makes [bin_encoder]
    raise IndexError and an address instruction with a symbol left in it
    makes it raise ValueError, whatever follows; nothing is returned. *)
Theorem bin_encoder_aborts (pre post pre' : list string) :
  bin_encoder pre = OK pre' →
  bin_encoder (pre ++ EmptyString :: post) = Raise IndexError ∧
  (∀ c t, Py.isspace c = false → Py.digit_value c = None →
          c ≠ "-"%char → c ≠ "+"%char →
     bin_encoder (pre ++ String "@" (String c t) :: post)
     = Raise ValueError).
Proof.
  intros Hpre. unfold bin_encoder in *. split.
  - by eapply for_append_raise.
  - intros c t Hsp Hdig Hminus Hplus. eapply for_append_raise; [done|].
    rewrite bin_line_address. by apply a_instr_encoder_symbol.
Qed.

Lemma bin_encoder_aborts_witness :
  bin_encoder (["@7"] ++ EmptyString :: ["0;JMP"]) = Raise IndexError.
Proof.
  apply (bin_encoder_aborts ["@7"] ["0;JMP"] ["0000000000000111"]).
  vm_compute. reflexivity.
Defined.

(* ===================================================================== *)
(** ** More on whole programs *)
(* ===================================================================== *)

Lemma parser_step_whitespace (line : string) :
  line ≠ EmptyString → Py.remove_whitespace line = EmptyString →
  parser_step [] line = [EmptyString].
Proof.
  intros Hne Hws. unfold parser_step.
  apply String.eqb_neq in Hne. by rewrite Hne, Hws.
Qed.

(** X25: a line made of whitespace only is handed on by [parser] as an
    empty instruction, and [main] then raises IndexError whatever the rest
    of the program is. *)
Theorem main_whitespace_line (pre post : list string) (line : string) :
  line ≠ EmptyString → Py.remove_whitespace line = EmptyString →
  parser (pre ++ line :: post)
  = parser pre ++ EmptyString :: parser post ∧
  main (pre ++ line :: post) = Raise IndexError.
Proof.
  intros Hne Hws.
  assert (parser (pre ++ line :: post)
          = parser pre ++ EmptyString :: parser post) as Hparse.
  { by rewrite parser_concat, parser_cons, parser_step_whitespace. }
  split; [done|]. unfold main. rewrite Hparse, label_table_eq.
  simpl mbind. unfold result_bind at 1, rbind.
  rewrite retained_app, retained_cons_instr by reflexivity.
  unfold var_table. rewrite var_loop_raises; [done|].
  rewrite Forall_app, Forall_cons. intros (_ & [Hidx _] & _). done.
Qed.

Lemma main_whitespace_line_witness :
  main (["@2"; "D=A"] ++ "   " :: ["@3"]) = Raise IndexError.
Proof.
  apply (main_whitespace_line ["@2"; "D=A"] ["@3"] "   ").
  - discriminate.
  - reflexivity.
Defined.

(** X26: when [main] returns, it returns one word for each line that
    [parser] keeps and that is not a label declaration, hence no more
    words than lines read. *)
Theorem main_output_length (asm_lst out : list string) :
  main asm_lst = OK out →
  length out = length (retained (parser asm_lst)) ∧
  (length out ≤ length asm_lst)%nat.
Proof.
  unfold main. rewrite label_table_eq. simpl mbind.
  unfold result_bind at 1, rbind.
  destruct (var_table _ _ _) as [V|e]; simpl; [|done].
  destruct (refer_to_num _ _ _ _) as [S'|e] eqn:HS'; simpl; [|done].
  intros Hout. unfold bin_encoder in Hout. unfold refer_to_num in HS'.
  apply for_append_length in Hout, HS'.
  assert (length out = length (retained (parser asm_lst))) as Hlen
    by congruence.
  split; [done|]. rewrite Hlen.
  etrans; [apply length_filter|].
  clear. induction asm_lst as [|line l IH]; [done|].
  rewrite parser_cons, List.length_app. simpl length.
  assert (length (parser_step [] line) ≤ 1)%nat; [|lia].
  unfold parser_step. destruct (String.eqb line EmptyString); [simpl; lia|].
  destruct (Py.find "/" _) as [[|ind]|]; simpl; lia.
Qed.

Lemma main_output_length_witness :
  length ["0000000000000010"; "1110110000010000"]
  = length (retained (parser ["// add"; "@2"; "(L)"; EmptyString; "D=A"])).
Proof.
  apply (main_output_length ["// add"; "@2"; "(L)"; EmptyString; "D=A"]
           ["0000000000000010"; "1110110000010000"]).
  vm_compute. reflexivity.
Defined.

(** X27: whitespace inside a line does not matter: a line that is not made
    of whitespace only can be replaced by itself without whitespace, and
    [main] gives the same result. *)
Theorem main_ignores_whitespace (pre post : list string) (line : string) :
  Py.remove_whitespace line ≠ EmptyString →
  main (pre ++ line :: post)
  = main (pre ++ Py.remove_whitespace line :: post).
Proof.
  intros Hws. unfold main. rewrite !parser_concat, !parser_cons.
  replace (parser_step [] (Py.remove_whitespace line))
    with (parser_step [] line); [done|].
  unfold parser_step.
  assert (line ≠ EmptyString) as Hline by (by intros ->).
  apply String.eqb_neq in Hline, Hws. rewrite Hline, Hws.
  by rewrite (remove_whitespace_id (Py.remove_whitespace line))
    by apply remove_whitespace_no_space.
Qed.

Lemma main_ignores_whitespace_witness :
  main (["@2"] ++ "  D = A " :: ["@3"]) = main (["@2"] ++ "D=A" :: ["@3"]).
Proof.
  apply (main_ignores_whitespace ["@2"] ["@3"] "  D = A ").
  discriminate.
Defined.

Lemma alloc_bounds (t : gmap string Z) (p lo : Z) (order : list string) :
  lo ≤ p → map_Forall (λ _ v, lo ≤ v) t →
  map_Forall (λ _ v, lo ≤ v) (alloc t p order).
Proof.
  revert t p. induction order as [|s order IH]; intros t p Hp Ht; [done|].
  simpl. apply IH; [lia|]. by apply map_Forall_insert_2.
Qed.

Lemma isdigit_not_space (c : ascii) :
  Py.isdigit c = true → Py.isspace c = false.
Proof.
  unfold Py.isdigit, Py.isspace.
  set (n := Z.of_nat (nat_of_ascii c)).
  destruct (Z.leb_spec 48 n), (Z.leb_spec n 57), (Z.eqb_spec n 178),
    (Z.eqb_spec n 179), (Z.eqb_spec n 185); simpl; try done; intros _;
  destruct (Z.leb_spec 9 n), (Z.leb_spec n 13), (Z.leb_spec 28 n),
    (Z.leb_spec n 32), (Z.eqb_spec n 133), (Z.eqb_spec n 160);
    simpl; try done; lia.
Qed.

Lemma isdigit_not_sign (c : ascii) :
  Py.isdigit c = true → Ascii.eqb c "-" = false ∧ Ascii.eqb c "+" = false.
Proof.
  intros Hc.
  split; apply Ascii.eqb_neq; intros ->; vm_compute in Hc; done.
Qed.

Lemma int_digits_nonneg (s : string) (acc n : Z) (prev : bool) :
  0 ≤ acc → Py.int_digits s acc prev = Some n → 0 ≤ n.
Proof.
  revert acc prev. induction s as [|c s IH]; intros acc prev Hacc; simpl.
  - destruct prev; [by intros [= <-] | done].
  - destruct (Py.digit_value c) as [d|] eqn:Hd.
    + apply IH. unfold Py.digit_value in Hd.
      destruct (_ && _) eqn:Hrange; [|done]. injection Hd as <-.
      apply andb_true_iff in Hrange as [H48 _]. apply Z.leb_le in H48. lia.
    + destruct (_ && _); [by apply IH | done].
Qed.

Lemma binary_zeros (j : nat) (s : string) :
  binary (zeros j s) = binary s.
Proof. induction j as [|j IH]; [done | exact IH]. Qed.

Lemma length_zeros (j : nat) (s : string) :
  String.length (zeros j s) = (j + String.length s)%nat.
Proof. induction j as [|j IH]; simpl; [done | by rewrite IH]. Qed.

Lemma bin_digits_binary (p : positive) :
  binary (Py.bin_digits p EmptyString) = true.
Proof.
  unfold binary.
  induction p as [p IH|p IH|]; simpl Py.bin_digits; [| |done];
    by rewrite bin_digits_acc, string_forall_app, IH.
Qed.

(** The word written for an address instruction whose operand starts
    with a digit. *)
Lemma a_instr_encoder_word (c : ascii) (t word : string) :
  Py.isdigit c = true →
  a_instr_encoder (String "@" (String c t)) = OK word →
  binary word = true ∧ (16 ≤ String.length word)%nat.
Proof.
  intros Hc. unfold a_instr_encoder. rewrite slice_tail.
  destruct (Py.int (String c t)) as [n|e] eqn:Hint; simpl; [|done].
  intros <-%OK_inj.
  assert (0 ≤ n) as Hn.
  { unfold Py.int in Hint. simpl Py.lstrip in Hint.
    pose proof (isdigit_not_space c Hc) as Hsp. rewrite Hsp in Hint.
    destruct (rstrip_head c t Hsp) as [r Hr]. rewrite Hr in Hint.
    destruct (isdigit_not_sign c Hc) as [Hm Hp]. rewrite Hm, Hp in Hint.
    destruct (Py.int_digits (String c r) 0 false) as [m|] eqn:Hm';
      [|done].
    injection Hint as <-. by eapply int_digits_nonneg. }
  destruct n as [|p|p]; [by vm_compute| |lia].
  unfold Py.bin. rewrite !app_cons, app_nil_l, slice_tail2.
  fold (zeros (Z.to_nat (16 - Py.len (Py.bin_digits p EmptyString)))
          (Py.bin_digits p EmptyString)).
  rewrite binary_zeros, length_zeros, bin_digits_binary.
  unfold Py.len. rewrite bin_digits_length. split; [done|lia].
Qed.

Lemma const_table_nonneg : map_Forall (λ _ v, 0 ≤ v) const_table.
Proof.
  apply map_Forall_to_list.
  set (entries := map_to_list const_table). vm_compute in entries.
  subst entries. repeat constructor; simpl; lia.
Qed.

(** X28: every word [main] returns consists of the characters [0] and [1]
    only and has at least 16 of them. *)
Theorem main_output_words (asm_lst out : list string) :
  main asm_lst = OK out →
  Forall (λ word, binary word = true ∧ (16 ≤ String.length word)%nat) out.
Proof.
  unfold main. rewrite label_table_eq. simpl mbind.
  unfold result_bind at 1, rbind.
  set (S := retained (parser asm_lst)).
  set (L := label_scan ∅ 0 (parser asm_lst)).
  destruct (var_table S L const_table) as [V|e] eqn:HV; simpl; [|done].
  destruct (refer_to_num S L const_table V) as [S'|e] eqn:HS'; simpl;
    [|done].
  intros Hout.
  assert (Forall (λ line, symbol_of line = None ∧ indexable line) S')
    as Hnum.
  { eapply refer_output_numeric; [|exact HS'].
    apply (merged_Forall (λ v, 0 ≤ v)).
    - pose proof (label_scan_bounds ∅ 0 0 (parser asm_lst)) as Hb.
      specialize (Hb ltac:(lia) (map_Forall_empty _)).
      eapply map_Forall_impl; [exact Hb|]. simpl. intros. lia.
    - apply const_table_nonneg.
    - assert (Forall indexable S) as HS.
      { destruct (decide (Forall indexable S)) as [|Hnot]; [done|].
        unfold var_table in HV. by rewrite var_loop_raises in HV. }
      rewrite var_table_eq in HV by done. injection HV as <-.
      eapply map_Forall_impl;
        [apply (alloc_bounds ∅ 16 16); [lia | apply map_Forall_empty]|].
      simpl. intros. lia. }
  unfold bin_encoder in Hout. apply for_append_Forall2 in Hout.
  clear HS'. induction Hout as [|line word l k Hword _ IH].
  - constructor.
  - apply Forall_cons in Hnum as [[Hsym Hidx] Hnum].
    constructor; [|by apply IH].
    apply bin_line_OK in Hword as (c & t & -> & Henc).
    destruct (Ascii.eqb_spec c "@") as [->|Hc].
    + destruct t as [|c1 t]; [by destruct Hidx|].
      simpl in Hsym. destruct (Py.isdigit c1) eqn:Hc1; [|done].
      by eapply a_instr_encoder_word.
    + apply c_instr_encoder_word in Henc as (Hlen & Hbin & _).
      split; [done | lia].
Qed.

Lemma main_output_words_witness :
  Forall (λ word, binary word = true ∧ (16 ≤ String.length word)%nat)
    ["0000000000010000"; "1110111111001000"; "10000000000000000"].
Proof.
  apply (main_output_words ["@i"; "M=1 // one"; "@65536"]).
  vm_compute. reflexivity.
Defined.

Lemma var_loop_no_symbols (L C : gmap string Z) (S : list string)
    (st : gmap string Z * Z) :
  Forall (λ line, symbol_of line = None ∧ indexable line) S →
  for_each (var_step L C) S st = OK st.
Proof.
  induction 1 as [|line S [Hsym Hidx] _ IH]; [done|].
  simpl. rewrite var_step_indexable by done.
  unfold var_next. rewrite Hsym. simpl. exact IH.
Qed.

(** X29: on a program in which [parser] leaves no label declaration and no
    symbolic operand, and only lines that can be indexed, [main] is
    [bin_encoder] after [parser]. *)
Theorem main_without_symbols (asm_lst : list string) :
  Forall (λ line, is_label line = false ∧ symbol_of line = None
                  ∧ indexable line) (parser asm_lst) →
  main asm_lst = bin_encoder (parser asm_lst).
Proof.
  intros Hall. unfold main. rewrite label_table_eq. simpl mbind.
  unfold result_bind at 1, rbind.
  rewrite retained_all
    by (eapply Forall_impl; [exact Hall|]; by intros ? [? _]).
  assert (Forall (λ line, symbol_of line = None ∧ indexable line)
            (parser asm_lst)) as Hnum
    by (eapply Forall_impl; [exact Hall|]; by intros ? (_ & ? & ?)).
  unfold var_table. rewrite var_loop_no_symbols by done. simpl.
  unfold refer_to_num. by rewrite refer_no_symbols.
Qed.

Lemma main_without_symbols_witness :
  main ["@2"; "D=A // two"; EmptyString; "@3"; "D=D+A"]
  = bin_encoder (parser ["@2"; "D=A // two"; EmptyString; "@3"; "D=D+A"]).
Proof.
  apply (main_without_symbols ["@2"; "D=A // two"; EmptyString; "@3"; "D=D+A"]).
  change (parser ["@2"; "D=A // two"; EmptyString; "@3"; "D=D+A"])
    with ["@2"; "D=A"; "@3"; "D=D+A"].
  repeat constructor; done.
Defined.
